(** * HealthCare-IMS: the entity store and its HTTP routes

    A shallow embedding of [server/storage.ts] (class [DatabaseStorage]),
    of the route handlers of [server/routes.ts], of the table declarations
    of [shared/schema.ts] and of the helpers of the client that take part
    in the contracts: [client/src/lib/utils.ts], the submit step of
    [ProgramForm], the checkboxes of [ProgramUpdateForm], the gradient
    of [ProgramCard] and the search of the clients page.

    The relational database is modelled by explicit state passing: a [Db]
    holds the rows of every table in insertion order together with the
    sequences behind the [serial] columns, and every statement the store
    issues is a function [Db -> (Exn + A) * Db].  The constraints are the
    ones the schema declares (primary keys, [unique] columns, foreign keys,
    column defaults).

    JavaScript numbers that hold row ids are modelled by [Z]; the
    driver's refusal of a number that no [integer] column can hold is not
    modelled, and where the outcome would differ a statement about an id
    that arrives in a request assumes [int4] of it.  Strings are
    [string], compared and case-folded byte by byte, which is what
    JavaScript and PostgreSQL do on strings of ASCII characters; a
    statement whose truth depends on how other characters are folded
    assumes [ascii_only] of the strings. *)

From Stdlib Require Import ZArith String Ascii List Bool Lia.
From Stdlib Require Import Decimal DecimalString DecimalPos.
From stdpp Require Import base option list gmap strings sorting.

Local Open Scope string_scope.
Local Open Scope Z_scope.
Local Open Scope list_scope.

(* ===================================================================== *)
(** ** JavaScript strings *)
(* ===================================================================== *)

Module Js.

(** [s.startsWith(p)]. *)
Fixpoint startsWith (p s : string) : bool :=
  match p, s with
  | EmptyString, _ => true
  | String _ _, EmptyString => false
  | String a p', String b s' => Ascii.eqb a b && startsWith p' s'
  end.

(** [s.includes(q)]. *)
Fixpoint includes (q s : string) : bool :=
  startsWith q s ||
  match s with
  | EmptyString => false
  | String _ s' => includes q s'
  end.

Definition is_upper (c : ascii) : bool :=
  let n := nat_of_ascii c in (65 <=? n)%nat && (n <=? 90)%nat.

Definition is_lower (c : ascii) : bool :=
  let n := nat_of_ascii c in (97 <=? n)%nat && (n <=? 122)%nat.

Definition is_digit (c : ascii) : bool :=
  let n := nat_of_ascii c in (48 <=? n)%nat && (n <=? 57)%nat.

Definition lower_char (c : ascii) : ascii :=
  if is_upper c then ascii_of_nat (nat_of_ascii c + 32) else c.

Definition upper_char (c : ascii) : ascii :=
  if is_lower c then ascii_of_nat (nat_of_ascii c - 32) else c.

Fixpoint map_chars (f : ascii -> ascii) (s : string) : string :=
  match s with
  | EmptyString => EmptyString
  | String c s' => String (f c) (map_chars f s')
  end.

(** [s.toLowerCase()] and [s.toUpperCase()] on the ASCII letters: exact
    for a string of ASCII characters. *)
Definition toLowerCase : string -> string := map_chars lower_char.
Definition toUpperCase : string -> string := map_chars upper_char.

Fixpoint all_chars (f : ascii -> bool) (s : string) : bool :=
  match s with
  | EmptyString => true
  | String c s' => f c && all_chars f s'
  end.

Fixpoint repeat_char (c : ascii) (n : nat) : string :=
  match n with
  | O => EmptyString
  | S n' => String c (repeat_char c n')
  end.

(** [s.padStart(n, c)] for a one-character filler: a string that is
    already [n] long or longer is returned as it is. *)
Definition padStart (n : nat) (c : ascii) (s : string) : string :=
  repeat_char c (n - String.length s) +:+ s.

(** [String(n)] and [n.toString()] for an integer [n]. *)
Definition String_of (n : Z) : string :=
  NilZero.string_of_int (Z.to_int n).

(** Truthiness of an optional string: [undefined] and [""] are falsy. *)
Definition truthy (o : option string) : bool :=
  match o with
  | None => false
  | Some s => negb (String.eqb s "")
  end.

(** A [Date]: a time value in milliseconds, or the Invalid Date. *)
Inductive Date : Type :=
| ValidDate (ms : Z)
| InvalidDate.

End Js.

(* ===================================================================== *)
(** ** PostgreSQL pattern matching *)
(* ===================================================================== *)

Module Pg.

(** [s LIKE p]: [%] stands for any run of characters, [_] for any one
    character, and a backslash takes the next pattern character
    literally.  A pattern that ends in a lone backslash is rejected by
    the server; here it matches nothing ([searchClients] never builds
    one, its patterns end in [%]). *)
Fixpoint like (p s : string) {struct p} : bool :=
  match p with
  | EmptyString =>
      match s with EmptyString => true | _ => false end
  | String c p' =>
      if Ascii.eqb c "%" then
        (fix any (t : string) : bool :=
           like p' t ||
           match t with
           | EmptyString => false
           | String _ t' => any t'
           end) s
      else if Ascii.eqb c "_" then
        match s with
        | EmptyString => false
        | String _ s' => like p' s'
        end
      else if Ascii.eqb c "\" then
        match p' with
        | EmptyString => false
        | String e p'' =>
            match s with
            | EmptyString => false
            | String d s' => Ascii.eqb e d && like p'' s'
            end
        end
      else
        match s with
        | EmptyString => false
        | String d s' => Ascii.eqb c d && like p' s'
        end
  end.

(** [s ILIKE p]: [LIKE] after folding both sides to lower case; the
    folding is that of the ASCII letters. *)
Definition ilike (s p : string) : bool :=
  like (Js.toLowerCase p) (Js.toLowerCase s).


End Pg.

(* ===================================================================== *)
(** ** The tables of [shared/schema.ts] *)
(* ===================================================================== *)

(** A row of [programs]; [required_info] is a nullable text array. *)
Record Program : Type := mkProgram {
  p_id : Z;
  p_name : string;
  p_code : string;
  p_description : string;
  p_requiredInfo : option (list string)
}.

(** [InsertProgram]: the insert schema omits [id]. *)
Record InsertProgram : Type := mkInsertProgram {
  ip_name : string;
  ip_code : string;
  ip_description : string;
  ip_requiredInfo : option (list string)
}.

(** A row of [clients]; [email] and [created_at] are nullable. *)
Record Client : Type := mkClient {
  c_id : Z;
  c_clientId : string;
  c_name : string;
  c_dob : string;
  c_gender : string;
  c_phone : string;
  c_address : string;
  c_email : option string;
  c_emergencyContact : string;
  c_status : string;
  c_createdAt : option Z
}.

(** [InsertClient]: [id] and [createdAt] are omitted, [clientId] is
    optional ([partial]), [status] has a column default. *)
Record InsertClient : Type := mkInsertClient {
  ic_clientId : option string;
  ic_name : string;
  ic_dob : string;
  ic_gender : string;
  ic_phone : string;
  ic_address : string;
  ic_email : option string;
  ic_emergencyContact : string;
  ic_status : option string
}.

(** A row of [enrollments]; [notes], [symptom_severity], [risk_level] and
    [follow_up_required] are nullable columns. *)
Record Enrollment : Type := mkEnrollment {
  e_id : Z;
  e_clientId : Z;
  e_programId : Z;
  e_enrollDate : Z;
  e_notes : option string;
  e_status : string;
  e_symptomSeverity : option string;
  e_riskLevel : option string;
  e_followUpRequired : option bool
}.

(** [InsertEnrollment].  A field that is [None] is [undefined] and takes
    the column default; for [followUpRequired], whose default is not
    null, [Some None] is an explicit [null]. *)
Record InsertEnrollment : Type := mkInsertEnrollment {
  ie_clientId : Z;
  ie_programId : Z;
  ie_enrollDate : option Js.Date;
  ie_notes : option string;
  ie_status : option string;
  ie_symptomSeverity : option string;
  ie_riskLevel : option string;
  ie_followUpRequired : option (option bool)
}.

Record Visit : Type := mkVisit {
  v_id : Z;
  v_clientId : Z;
  v_programId : Z;
  v_date : Z;
  v_doctor : string;
  v_purpose : string
}.

Record Note : Type := mkNote {
  n_id : Z;
  n_clientId : Z;
  n_programId : option Z;
  n_content : string;
  n_createdBy : string;
  n_createdAt : Z
}.

(** A value that is a string or a number at run time. *)
Inductive StringOrNumber : Type :=
| IsString (s : string)
| IsNumber (n : Z).

(** [ProgramWithEnrollments = Program & { enrollmentCount: number }].
    The declared type is [number]; the value that
    [getProgramsWithEnrollmentCount] puts there is the text in which the
    driver hands over the [bigint] of [count( * )], or the number 0. *)
Record ProgramWithEnrollments : Type := mkProgramWithEnrollments {
  pwe_program : Program;
  enrollmentCount : StringOrNumber
}.

(* ===================================================================== *)
(** ** The database *)
(* ===================================================================== *)

(** The rows of each table in insertion order, the next value of the
    sequence behind each [serial] column written by the store, and the
    reading of the server clock used by [defaultNow()]. *)
Record Db : Type := mkDb {
  programs : list Program;
  programs_seq : Z;
  clients : list Client;
  clients_seq : Z;
  enrollments : list Enrollment;
  enrollments_seq : Z;
  visits : list Visit;
  notes : list Note;
  db_now : Z
}.

Definition set_programs (ps : list Program) (seq : Z) (db : Db) : Db :=
  mkDb ps seq (clients db) (clients_seq db) (enrollments db)
       (enrollments_seq db) (visits db) (notes db) (db_now db).

Definition set_clients (cs : list Client) (seq : Z) (db : Db) : Db :=
  mkDb (programs db) (programs_seq db) cs seq (enrollments db)
       (enrollments_seq db) (visits db) (notes db) (db_now db).

Definition set_enrollments (es : list Enrollment) (seq : Z) (db : Db) : Db :=
  mkDb (programs db) (programs_seq db) (clients db) (clients_seq db) es seq
       (visits db) (notes db) (db_now db).

(** What a statement or a store method can throw: the errors of the
    driver for a violated constraint, the [RangeError] of serialising an
    Invalid Date, and the [ConflictError] of the specification, which
    no operation of the store raises. *)
Inductive Exn : Type :=
| UniqueViolation (constraint : string)
| ForeignKeyViolation (table constraint : string)
| RangeError (msg : string)
| ConflictError (msg : string).

Definition dquote : string := String "034"%char EmptyString.

(** [error.message]. *)
Definition message (e : Exn) : string :=
  match e with
  | UniqueViolation c =>
      "duplicate key value violates unique constraint " +:+ dquote +:+ c +:+ dquote
  | ForeignKeyViolation t c =>
      "insert or update on table " +:+ dquote +:+ t +:+ dquote +:+
      " violates foreign key constraint " +:+ dquote +:+ c +:+ dquote
  | RangeError m => m
  | ConflictError m => m
  end.

(** An [async] computation against the database: it returns a value or
    throws, and leaves a database behind. *)
Definition M (A : Type) : Type := Db -> (Exn + A) * Db.

Definition ret {A} (a : A) : M A := fun db => (inr a, db).
Definition throw {A} (e : Exn) : M A := fun db => (inl e, db).

Definition bind {A B} (m : M A) (k : A -> M B) : M B :=
  fun db =>
    match m db with
    | (inr a, db') => k a db'
    | (inl e, db') => (inl e, db')
    end.

(** [try { m } catch (error) { h error }]. *)
Definition try_catch {A} (m : M A) (h : Exn -> M A) : M A :=
  fun db =>
    match m db with
    | (inr a, db') => (inr a, db')
    | (inl e, db') => h e db'
    end.

Notation "x <- m ;; k" := (bind m (fun x => k))
  (at level 100, m at next level, right associativity).

(** [SELECT ... FROM t WHERE c]: the rows that satisfy [c]. *)
Definition select {A} (tbl : Db -> list A) (c : A -> bool) : M (list A) :=
  fun db => (inr (List.filter c (tbl db)), db).

(** [const [row] = await ...]: the first row, or [undefined]. *)
Definition first {A} (rows : list A) : option A := head rows.

(** [INSERT INTO programs ... RETURNING *].  The id is drawn from the
    sequence, which keeps its advance when the insert is rejected. *)
Definition insert_program (v : InsertProgram) : M Program :=
  fun db =>
    let row := mkProgram (programs_seq db) (ip_name v) (ip_code v)
                         (ip_description v) (ip_requiredInfo v) in
    let seq := programs_seq db + 1 in
    if existsb (fun p => p_id p =? p_id row) (programs db) then
      (inl (UniqueViolation "programs_pkey"), set_programs (programs db) seq db)
    else if existsb (fun p => String.eqb (p_code p) (p_code row)) (programs db) then
      (inl (UniqueViolation "programs_code_unique"),
       set_programs (programs db) seq db)
    else (inr row, set_programs (programs db ++ [row]) seq db).

(** [INSERT INTO clients ... RETURNING *]; [status] defaults to
    ["active"] and [created_at] to the clock. *)
Definition insert_client (v : InsertClient) (clientId : string) : M Client :=
  fun db =>
    let row := mkClient (clients_seq db) clientId (ic_name v) (ic_dob v)
                        (ic_gender v) (ic_phone v) (ic_address v) (ic_email v)
                        (ic_emergencyContact v)
                        (default "active" (ic_status v))
                        (Some (db_now db)) in
    let seq := clients_seq db + 1 in
    if existsb (fun c => c_id c =? c_id row) (clients db) then
      (inl (UniqueViolation "clients_pkey"), set_clients (clients db) seq db)
    else if existsb (fun c => String.eqb (c_clientId c) clientId) (clients db) then
      (inl (UniqueViolation "clients_client_id_unique"),
       set_clients (clients db) seq db)
    else (inr row, set_clients (clients db ++ [row]) seq db).

Definition same_pair (clientId programId : Z) (e : Enrollment) : bool :=
  (e_clientId e =? clientId) && (e_programId e =? programId).

(** [INSERT INTO enrollments ... RETURNING *].  The driver serialises the
    date first ([toISOString] throws on the Invalid Date); the unique
    indexes are checked when the row is written and the foreign keys at
    the end of the statement. *)
Definition insert_enrollment (v : InsertEnrollment) : M Enrollment :=
  fun db =>
    match ie_enrollDate v with
    | Some Js.InvalidDate => (inl (RangeError "Invalid time value"), db)
    | d =>
        let enrollDate :=
          match d with Some (Js.ValidDate ms) => ms | _ => db_now db end in
        let row := mkEnrollment (enrollments_seq db) (ie_clientId v)
                     (ie_programId v) enrollDate (ie_notes v)
                     (default "active" (ie_status v))
                     (ie_symptomSeverity v) (ie_riskLevel v)
                     (default (Some false) (ie_followUpRequired v)) in
        let seq := enrollments_seq db + 1 in
        let rejected e := (inl e, set_enrollments (enrollments db) seq db) in
        if existsb (fun e => e_id e =? e_id row) (enrollments db) then
          rejected (UniqueViolation "enrollments_pkey")
        else if existsb (same_pair (ie_clientId v) (ie_programId v))
                        (enrollments db) then
          rejected (UniqueViolation "enrollments_client_id_program_id_unique")
        else if negb (existsb (fun c => c_id c =? ie_clientId v) (clients db)) then
          rejected (ForeignKeyViolation "enrollments"
                      "enrollments_client_id_clients_id_fk")
        else if negb (existsb (fun p => p_id p =? ie_programId v) (programs db)) then
          rejected (ForeignKeyViolation "enrollments"
                      "enrollments_program_id_programs_id_fk")
        else (inr row, set_enrollments (enrollments db ++ [row]) seq db)
    end.

(** [ORDER BY id DESC] on [clients]. *)
Definition newer (a b : Client) : Prop := c_id b <= c_id a.

#[local] Instance newer_dec (a b : Client) : Decision (newer a b) :=
  Z_le_dec (c_id b) (c_id a).

Definition order_by_id_desc (cs : list Client) : list Client :=
  merge_sort newer cs.

(* ===================================================================== *)
(** ** Joins, and the tables of visits and notes *)
(* ===================================================================== *)

(** [InsertVisit]: the insert schema omits [id]; [date] has a default. *)
Record InsertVisit : Type := mkInsertVisit {
  iv_clientId : Z;
  iv_programId : Z;
  iv_date : option Js.Date;
  iv_doctor : string;
  iv_purpose : string
}.

(** [InsertNote]: [id] and [createdAt] are omitted; [programId] is
    nullable. *)
Record InsertNote : Type := mkInsertNote {
  in_clientId : Z;
  in_programId : option Z;
  in_content : string;
  in_createdBy : string
}.

(** [ClientWithEnrollments] and [ClientWithDetails].  An element
    [{ ...enrollment, program }] is the pair of the row and the joined
    program; a note whose join found no program has [program] unset. *)
Record ClientWithEnrollments : Type := mkClientWithEnrollments {
  cwe_client : Client;
  cwe_enrollments : list (Enrollment * Program)
}.

Record ClientWithDetails : Type := mkClientWithDetails {
  cd_client : Client;
  cd_enrollments : list (Enrollment * Program);
  cd_visits : list (Visit * Program);
  cd_notes : list (Note * option Program)
}.

Definition set_visits (vs : list Visit) (db : Db) : Db :=
  mkDb (programs db) (programs_seq db) (clients db) (clients_seq db)
       (enrollments db) (enrollments_seq db) vs (notes db) (db_now db).

Definition set_notes (ns : list Note) (db : Db) : Db :=
  mkDb (programs db) (programs_seq db) (clients db) (clients_seq db)
       (enrollments db) (enrollments_seq db) (visits db) ns (db_now db).

(** [l INNER JOIN r ON on]: every row of [l] with every row of [r] that
    matches it. *)
Definition inner_join {A B} (on : A -> B -> bool) (l : list A) (r : list B)
  : list (A * B) :=
  flat_map (fun a => map (pair a) (List.filter (on a) r)) l.

(** [l LEFT JOIN r ON on]: a row of [l] without a match is kept, with
    nothing at its side. *)
Definition left_join {A B} (on : A -> B -> bool) (l : list A) (r : list B)
  : list (A * option B) :=
  flat_map (fun a =>
              match List.filter (on a) r with
              | [] => [(a, None)]
              | matches => map (fun b => (a, Some b)) matches
              end) l.

(** [INSERT INTO visits ... RETURNING *]; [nextval] is the id the insert
    draws from the sequence of the [serial] column. *)
Definition insert_visit (nextval : Z) (v : InsertVisit) : M Visit :=
  fun db =>
    match iv_date v with
    | Some Js.InvalidDate => (inl (RangeError "Invalid time value"), db)
    | d =>
        let date :=
          match d with Some (Js.ValidDate ms) => ms | _ => db_now db end in
        let row := mkVisit nextval (iv_clientId v) (iv_programId v) date
                           (iv_doctor v) (iv_purpose v) in
        if existsb (fun w => v_id w =? nextval) (visits db) then
          (inl (UniqueViolation "visits_pkey"), db)
        else if negb (existsb (fun c => c_id c =? iv_clientId v) (clients db)) then
          (inl (ForeignKeyViolation "visits" "visits_client_id_clients_id_fk"), db)
        else if negb (existsb (fun p => p_id p =? iv_programId v) (programs db)) then
          (inl (ForeignKeyViolation "visits" "visits_program_id_programs_id_fk"), db)
        else (inr row, set_visits (visits db ++ [row]) db)
    end.

(** [INSERT INTO notes ... RETURNING *]; a null [program_id] refers to
    nothing and is not checked. *)
Definition insert_note (nextval : Z) (v : InsertNote) : M Note :=
  fun db =>
    let row := mkNote nextval (in_clientId v) (in_programId v) (in_content v)
                      (in_createdBy v) (db_now db) in
    if existsb (fun n => n_id n =? nextval) (notes db) then
      (inl (UniqueViolation "notes_pkey"), db)
    else if negb (existsb (fun c => c_id c =? in_clientId v) (clients db)) then
      (inl (ForeignKeyViolation "notes" "notes_client_id_clients_id_fk"), db)
    else if match in_programId v with
            | Some pid => negb (existsb (fun p => p_id p =? pid) (programs db))
            | None => false
            end then
      (inl (ForeignKeyViolation "notes" "notes_program_id_programs_id_fk"), db)
    else (inr row, set_notes (notes db ++ [row]) db).

(* ===================================================================== *)
(** ** [server/storage.ts]: class [DatabaseStorage] *)
(* ===================================================================== *)

Module Storage.

Definition getPrograms : M (list Program) :=
  select programs (fun _ => true).

Definition getProgramById (id : Z) : M (option Program) :=
  rows <- select programs (fun p => p_id p =? id) ;;
  ret (first rows).

Definition getProgramByCode (code : string) : M (option Program) :=
  rows <- select programs (fun p => String.eqb (p_code p) code) ;;
  ret (first rows).

Definition createProgram (program : InsertProgram) : M Program :=
  insert_program program.

Definition getClients : M (list Client) :=
  fun db => (inr (order_by_id_desc (clients db)), db).

Definition getClientById (id : Z) : M (option Client) :=
  rows <- select clients (fun c => c_id c =? id) ;;
  ret (first rows).

(** The branch of [createClient] that builds a client id: the latest
    client is the first row of [ORDER BY id DESC LIMIT 1]. *)
Definition nextClientId (year : Z) : M string :=
  fun db =>
    let clientIdPrefix := "HIS" in
    let latestClients := take 1 (order_by_id_desc (clients db)) in
    let nextId :=
      match latestClients with
      | latest :: _ => c_id latest + 1
      | [] => 1
      end in
    let paddedId := Js.padStart 3 "0" (Js.String_of nextId) in
    (inr (clientIdPrefix +:+ "-" +:+ Js.String_of year +:+ "-" +:+ paddedId), db).

(** [createClient]; [year] is [new Date().getFullYear()].  The id is
    generated when [!clientId], that is when the field is [undefined]
    or the empty string. *)
Definition createClient (year : Z) (client : InsertClient) : M Client :=
  clientId <-
    (if Js.truthy (ic_clientId client)
     then ret (default "" (ic_clientId client))
     else nextClientId year) ;;
  insert_client client clientId.

Definition search_hit (query : string) (c : Client) : bool :=
  let pattern := "%" +:+ query +:+ "%" in
  Pg.ilike (c_name c) pattern ||
  Pg.ilike (c_clientId c) pattern ||
  Pg.ilike (c_phone c) pattern.

Definition searchClients (query : string) : M (list Client) :=
  if negb (Js.truthy (Some query)) then ret []
  else select clients (search_hit query).

Definition getEnrollments : M (list Enrollment) :=
  select enrollments (fun _ => true).

Definition createEnrollment (enrollment : InsertEnrollment) : M Enrollment :=
  insert_enrollment enrollment.

(** [DELETE FROM enrollments WHERE client_id = .. AND program_id = ..
    RETURNING id], then [result.length > 0]. *)
Definition deleteEnrollment (clientId programId : Z) : M bool :=
  fun db =>
    let result :=
      map e_id (List.filter (same_pair clientId programId) (enrollments db)) in
    let kept :=
      List.filter (fun e => negb (same_pair clientId programId e))
                  (enrollments db) in
    (inr (0 <? Z.of_nat (length result)),
     set_enrollments kept (enrollments_seq db) db).

(** [SELECT program_id, count( * ) FROM enrollments GROUP BY program_id]:
    one row for each program id that occurs, with the number of rows
    of its group.  [count( * )] is a [bigint], which the driver hands
    over as its decimal text; the [sql<number>] of the query is a type
    annotation and converts nothing. *)
Definition enrollmentCounts (es : list Enrollment) : list (Z * string) :=
  map (fun k =>
         (k, Js.String_of
               (Z.of_nat (length (List.filter (fun e => e_programId e =? k) es)))))
      (remove_dups (map e_programId es)).

(** [enrollmentCounts.forEach(... enrollmentCountMap.set(programId, count))]. *)
Definition enrollmentCountMap (rows : list (Z * string)) : gmap Z string :=
  foldl (fun m r => <[fst r := snd r]> m) ∅ rows.

(** [enrollmentCountMap.get(program.id) || 0]: a text that is not empty
    is truthy and is passed on as it is. *)
Definition get_or_0 (m : gmap Z string) (id : Z) : StringOrNumber :=
  match m !! id with
  | Some count => if String.eqb count "" then IsNumber 0 else IsString count
  | None => IsNumber 0
  end.

Definition getProgramsWithEnrollmentCount : M (list ProgramWithEnrollments) :=
  programList <- getPrograms ;;
  counts <- (fun db => (inr (enrollmentCounts (enrollments db)), db)) ;;
  let m := enrollmentCountMap counts in
  ret (map (fun program =>
              mkProgramWithEnrollments program (get_or_0 m (p_id program)))
           programList).

Definition getClientByClientId (clientId : string) : M (option Client) :=
  rows <- select clients (fun c => String.eqb (c_clientId c) clientId) ;;
  ret (first rows).

Definition getEnrollmentById (id : Z) : M (option Enrollment) :=
  rows <- select enrollments (fun e => e_id e =? id) ;;
  ret (first rows).

(** [enrollments INNER JOIN programs ON enrollments.program_id =
    programs.id WHERE enrollments.client_id = ..]. *)
Definition getEnrollmentsByClientId (clientId : Z) : M (list (Enrollment * Program)) :=
  fun db =>
    let results :=
      List.filter (fun r => e_clientId (fst r) =? clientId)
        (inner_join (fun e p => e_programId e =? p_id p)
                    (enrollments db) (programs db)) in
    (inr results, db).

Definition getEnrollmentsByProgramId (programId : Z) : M (list (Enrollment * Client)) :=
  fun db =>
    let results :=
      List.filter (fun r => e_programId (fst r) =? programId)
        (inner_join (fun e c => e_clientId e =? c_id c)
                    (enrollments db) (clients db)) in
    (inr results, db).

Definition getVisitsByClientId (clientId : Z) : M (list Visit) :=
  select visits (fun v => v_clientId v =? clientId).

Definition createVisit (nextval : Z) (visit : InsertVisit) : M Visit :=
  insert_visit nextval visit.

Definition getNotesByClientId (clientId : Z) : M (list Note) :=
  select notes (fun n => n_clientId n =? clientId).

Definition createNote (nextval : Z) (note : InsertNote) : M Note :=
  insert_note nextval note.

(** The join of a note with its program: a note without a program id
    matches no program. *)
Definition note_program (n : Note) (p : Program) : bool :=
  match n_programId n with
  | Some pid => pid =? p_id p
  | None => false
  end.

Definition getClientDetails (clientId : Z) : M (option ClientWithDetails) :=
  client <- getClientById clientId ;;
  match client with
  | None => ret None
  | Some client =>
      clientEnrollments <- getEnrollmentsByClientId clientId ;;
      clientVisits <-
        (fun db =>
           (inr (List.filter (fun r => v_clientId (fst r) =? clientId)
                   (inner_join (fun v p => v_programId v =? p_id p)
                               (visits db) (programs db))), db)) ;;
      clientNotes <-
        (fun db =>
           (inr (List.filter (fun r => n_clientId (fst r) =? clientId)
                   (left_join note_program (notes db) (programs db))), db)) ;;
      ret (Some (mkClientWithDetails client clientEnrollments clientVisits
                                     clientNotes))
  end.

Definition getClientWithEnrollments (clientId : Z)
  : M (option ClientWithEnrollments) :=
  client <- getClientById clientId ;;
  match client with
  | None => ret None
  | Some client =>
      clientEnrollments <- getEnrollmentsByClientId clientId ;;
      ret (Some (mkClientWithEnrollments client clientEnrollments))
  end.

End Storage.

(* ===================================================================== *)
(** ** Request bodies and their validation *)
(* ===================================================================== *)

#[local] Set Warnings "-register-all".

(** A JSON value of a request body.  The numbers are the integers: a
    fraction cannot be written. *)
Inductive Json : Type :=
| JNull
| JBool (b : bool)
| JNum (n : Z)
| JStr (s : string)
| JArr (items : list Json)
| JObj (fields : list (string * Json)).

Module Zod.

(** [z.number()]. *)
Definition number (v : option Json) : option Z :=
  match v with
  | Some (JNum n) => Some n
  | _ => None
  end.

(** [z.string()]. *)
Definition string_ (v : option Json) : option string :=
  match v with
  | Some (JStr s) => Some s
  | _ => None
  end.

(** [z.string().optional()]: an absent key is accepted, [null] is not. *)
Definition string_optional (v : option Json) : option (option string) :=
  match v with
  | None => Some None
  | Some (JStr s) => Some (Some s)
  | Some _ => None
  end.

(** [z.boolean().optional()]. *)
Definition boolean_optional (v : option Json) : option (option bool) :=
  match v with
  | None => Some None
  | Some (JBool b) => Some (Some b)
  | Some _ => None
  end.



(** The check drizzle-zod derives for a nullable text column:
    [z.string().nullable().optional()]. *)
Definition string_nullish (v : option Json) : option (option string) :=
  match v with
  | None => Some None
  | Some JNull => Some None
  | Some (JStr s) => Some (Some s)
  | Some _ => None
  end.

(** The check for a nullable integer column. *)
Definition number_nullish (v : option Json) : option (option Z) :=
  match v with
  | None => Some None
  | Some JNull => Some None
  | Some (JNum n) => Some (Some n)
  | Some _ => None
  end.

End Zod.


(** [insertClientSchema.partial({ clientId: true }).safeParse(req.body)]:
    [clientId] and [status] may be absent, [email] may be absent or
    null. *)
Definition createClientSchema (body : gmap string Json) : option InsertClient :=
  clientId ← Zod.string_optional (body !! "clientId");
  name ← Zod.string_ (body !! "name");
  dob ← Zod.string_ (body !! "dob");
  gender ← Zod.string_ (body !! "gender");
  phone ← Zod.string_ (body !! "phone");
  address ← Zod.string_ (body !! "address");
  email ← Zod.string_nullish (body !! "email");
  emergencyContact ← Zod.string_ (body !! "emergencyContact");
  status ← Zod.string_optional (body !! "status");
  Some (mkInsertClient clientId name dob gender phone address email
                       emergencyContact status).

(** [insertNoteSchema.safeParse(req.body)]: [id] and [createdAt] are
    omitted, [programId] may be absent or null. *)
Definition insertNoteSchema (body : gmap string Json) : option InsertNote :=
  clientId ← Zod.number (body !! "clientId");
  programId ← Zod.number_nullish (body !! "programId");
  content ← Zod.string_ (body !! "content");
  createdBy ← Zod.string_ (body !! "createdBy");
  Some (mkInsertNote clientId programId content createdBy).

(* ===================================================================== *)
(** ** [server/routes.ts]: the handlers, behind the authentication gate *)
(* ===================================================================== *)

(** The JSON a handler sends.  [ValidationMessage] is the
    [{ message }] built by [fromZodError], whose text is not modelled. *)
Inductive Body : Type :=
| Message (m : string)
| ValidationMessage
| OneProgram (p : Program)
| ManyClients (cs : list Client)
| OneEnrollment (e : Enrollment)
| NoBody.

Record Response : Type := mkResponse {
  status : Z;
  body : Body
}.

(** What the handlers for the remaining routes send: the value given to
    [res.json], a [{ message }], or the [{ message }] of a failed
    validation. *)
Inductive Payload (A : Type) : Type :=
| Sent (a : A)
| SentMessage (m : string)
| SentValidationMessage.

Arguments Sent {A} a.
Arguments SentMessage {A} m.
Arguments SentValidationMessage {A}.

Record Reply (A : Type) : Type := mkReply {
  reply_status : Z;
  reply_payload : Payload A
}.

Arguments mkReply {A} reply_status reply_payload.
Arguments reply_status {A} r.
Arguments reply_payload {A} r.

(** The object of [GET /api/stats]. *)
Record Stats : Type := mkStats {
  totalClients : nat;
  activePrograms : nat;
  newEnrollments : nat
}.

Module Routes.

Section Handlers.

(** [parseInt] ([None] is [NaN]) and [new Date(string)] are the
    runtime's. *)
Variable parseInt : string -> option Z.
Variable new_Date : string -> Js.Date.

(** [createEnrollmentSchema] of the enrollment route.  Over JSON the
    [z.date()] arm of the union never applies; the string arm is
    transformed by [new Date] and not checked again. *)
Definition createEnrollmentSchema (body : gmap string Json)
  : option InsertEnrollment :=
  clientId ← Zod.number (body !! "clientId");
  programId ← Zod.number (body !! "programId");
  enrollDate ← Zod.string_ (body !! "enrollDate");
  notes ← Zod.string_optional (body !! "notes");
  status ← Zod.string_optional (body !! "status");
  symptomSeverity ← Zod.string_optional (body !! "symptomSeverity");
  riskLevel ← Zod.string_optional (body !! "riskLevel");
  followUpRequired ← Zod.boolean_optional (body !! "followUpRequired");
  Some (mkInsertEnrollment clientId programId (Some (new_Date enrollDate))
          notes status symptomSeverity riskLevel (Some <$> followUpRequired)).


(** [GET /api/clients]; [search] is [req.query.search]. *)
Definition GET_clients (search : option string) : M Response :=
  try_catch
    (if Js.truthy search then
       clients <- Storage.searchClients (default "" search) ;;
       ret (mkResponse 200 (ManyClients clients))
     else
       clients <- Storage.getClients ;;
       ret (mkResponse 200 (ManyClients clients)))
    (fun _ => ret (mkResponse 500 (Message "Failed to fetch clients"))).

(** [POST /api/enrollments]. *)
Definition POST_enrollments (body : gmap string Json) : M Response :=
  try_catch
    (match createEnrollmentSchema body with
     | None => ret (mkResponse 400 ValidationMessage)
     | Some data =>
         client <- Storage.getClientById (ie_clientId data) ;;
         match client with
         | None => ret (mkResponse 404 (Message "Client not found"))
         | Some _ =>
             program <- Storage.getProgramById (ie_programId data) ;;
             match program with
             | None => ret (mkResponse 404 (Message "Program not found"))
             | Some _ =>
                 try_catch
                   (newEnrollment <- Storage.createEnrollment data ;;
                    ret (mkResponse 201 (OneEnrollment newEnrollment)))
                   (fun error =>
                      if Js.includes "already enrolled" (message error)
                      then ret (mkResponse 409 (Message (message error)))
                      else throw error)
             end
         end
     end)
    (fun _ => ret (mkResponse 500 (Message "Failed to create enrollment"))).


(** [GET /api/programs]. *)
Definition GET_programs : M (Reply (list Program)) :=
  try_catch
    (programs <- Storage.getPrograms ;;
     ret (mkReply 200 (Sent programs)))
    (fun _ => ret (mkReply 500 (SentMessage "Failed to fetch programs"))).

(** [GET /api/programs/stats]. *)
Definition GET_programs_stats : M (Reply (list ProgramWithEnrollments)) :=
  try_catch
    (programsWithStats <- Storage.getProgramsWithEnrollmentCount ;;
     ret (mkReply 200 (Sent programsWithStats)))
    (fun _ => ret (mkReply 500 (SentMessage "Failed to fetch program statistics"))).

(** [GET /api/programs/:id]. *)
Definition GET_program (id_param : string) : M (Reply Program) :=
  try_catch
    (match parseInt id_param with
     | None => ret (mkReply 400 (SentMessage "Invalid program ID"))
     | Some id =>
         program <- Storage.getProgramById id ;;
         match program with
         | None => ret (mkReply 404 (SentMessage "Program not found"))
         | Some program => ret (mkReply 200 (Sent program))
         end
     end)
    (fun _ => ret (mkReply 500 (SentMessage "Failed to fetch program"))).

(** [GET /api/clients/:id]. *)
Definition GET_client (id_param : string) : M (Reply Client) :=
  try_catch
    (match parseInt id_param with
     | None => ret (mkReply 400 (SentMessage "Invalid client ID"))
     | Some id =>
         client <- Storage.getClientById id ;;
         match client with
         | None => ret (mkReply 404 (SentMessage "Client not found"))
         | Some client => ret (mkReply 200 (Sent client))
         end
     end)
    (fun _ => ret (mkReply 500 (SentMessage "Failed to fetch client"))).

(** [GET /api/clients/:id/details]. *)
Definition GET_client_details (id_param : string) : M (Reply ClientWithDetails) :=
  try_catch
    (match parseInt id_param with
     | None => ret (mkReply 400 (SentMessage "Invalid client ID"))
     | Some id =>
         clientDetails <- Storage.getClientDetails id ;;
         match clientDetails with
         | None => ret (mkReply 404 (SentMessage "Client not found"))
         | Some clientDetails => ret (mkReply 200 (Sent clientDetails))
         end
     end)
    (fun _ => ret (mkReply 500 (SentMessage "Failed to fetch client details"))).

(** [POST /api/clients]; [year] is the year of the server's clock. *)
Definition POST_clients (year : Z) (body : gmap string Json) : M (Reply Client) :=
  try_catch
    (match createClientSchema body with
     | None => ret (mkReply 400 SentValidationMessage)
     | Some data =>
         newClient <- Storage.createClient year data ;;
         ret (mkReply 201 (Sent newClient))
     end)
    (fun _ => ret (mkReply 500 (SentMessage "Failed to create client"))).

(** [GET /api/enrollments]. *)
Definition GET_enrollments : M (Reply (list Enrollment)) :=
  try_catch
    (enrollments <- Storage.getEnrollments ;;
     ret (mkReply 200 (Sent enrollments)))
    (fun _ => ret (mkReply 500 (SentMessage "Failed to fetch enrollments"))).

(** [GET /api/clients/:clientId/enrollments]. *)
Definition GET_client_enrollments (clientId_param : string)
  : M (Reply (list (Enrollment * Program))) :=
  try_catch
    (match parseInt clientId_param with
     | None => ret (mkReply 400 (SentMessage "Invalid client ID"))
     | Some clientId =>
         client <- Storage.getClientById clientId ;;
         match client with
         | None => ret (mkReply 404 (SentMessage "Client not found"))
         | Some _ =>
             enrollments <- Storage.getEnrollmentsByClientId clientId ;;
             ret (mkReply 200 (Sent enrollments))
         end
     end)
    (fun _ => ret (mkReply 500 (SentMessage "Failed to fetch client enrollments"))).

(** [GET /api/clients/:clientId/visits]. *)
Definition GET_client_visits (clientId_param : string) : M (Reply (list Visit)) :=
  try_catch
    (match parseInt clientId_param with
     | None => ret (mkReply 400 (SentMessage "Invalid client ID"))
     | Some clientId =>
         visits <- Storage.getVisitsByClientId clientId ;;
         ret (mkReply 200 (Sent visits))
     end)
    (fun _ => ret (mkReply 500 (SentMessage "Failed to fetch client visits"))).

(** [GET /api/clients/:clientId/notes]. *)
Definition GET_client_notes (clientId_param : string) : M (Reply (list Note)) :=
  try_catch
    (match parseInt clientId_param with
     | None => ret (mkReply 400 (SentMessage "Invalid client ID"))
     | Some clientId =>
         notes <- Storage.getNotesByClientId clientId ;;
         ret (mkReply 200 (Sent notes))
     end)
    (fun _ => ret (mkReply 500 (SentMessage "Failed to fetch client notes"))).

(** [POST /api/notes]; [nextval] is the id the insert draws. *)
Definition POST_notes (nextval : Z) (body : gmap string Json) : M (Reply Note) :=
  try_catch
    (match insertNoteSchema body with
     | None => ret (mkReply 400 SentValidationMessage)
     | Some data =>
         newNote <- Storage.createNote nextval data ;;
         ret (mkReply 201 (Sent newNote))
     end)
    (fun _ => ret (mkReply 500 (SentMessage "Failed to create note"))).

(** [GET /api/stats]. *)
Definition GET_stats : M (Reply Stats) :=
  try_catch
    (clients <- Storage.getClients ;;
     programs <- Storage.getPrograms ;;
     enrollments <- Storage.getEnrollments ;;
     let stats := mkStats (length clients) (length programs) (length enrollments) in
     ret (mkReply 200 (Sent stats)))
    (fun _ => ret (mkReply 500 (SentMessage "Failed to fetch stats"))).

End Handlers.

End Routes.

(* ===================================================================== *)
(** ** The client side: [lib/utils.ts] and [ProgramForm] *)
(* ===================================================================== *)

Module Utils.

(** [generateClientId(id)], with the year of the clock passed in. *)
Definition generateClientId (year : Z) (id : Z) : string :=
  "HIS-" +:+ Js.String_of year +:+ "-" +:+ Js.padStart 3 "0" (Js.String_of id).


(** [formatProgramBadge(code)]: the classes of a program's badge. *)
Definition formatProgramBadge (code : string) : string :=
  let c := Js.toUpperCase code in
  if String.eqb c "TB" then "bg-purple-100 text-purple-700 border border-purple-300"
  else if String.eqb c "HIV" then "bg-red-100 text-red-700 border border-red-300"
  else if String.eqb c "MALARIA" then
    "bg-blue-100 text-blue-700 border border-blue-300"
  else if String.eqb c "DIABETES" then
    "bg-emerald-100 text-emerald-700 border border-emerald-300"
  else if String.eqb c "MATERNAL" then
    "bg-pink-100 text-pink-700 border border-pink-300"
  else "bg-violet-100 text-violet-700 border border-violet-300".

Record StatusBadge : Type := mkStatusBadge {
  label : string;
  className : string
}.

(** [formatProgramStatusBadge(status)]. *)
Definition formatProgramStatusBadge (status : string) : StatusBadge :=
  let s := Js.toLowerCase status in
  if String.eqb s "active" then
    mkStatusBadge "Active" "bg-green-100 text-green-700 border border-green-300"
  else if String.eqb s "follow-up" then
    mkStatusBadge "Follow-up" "bg-amber-100 text-amber-700 border border-amber-300"
  else if String.eqb s "inactive" then
    mkStatusBadge "Inactive" "bg-slate-100 text-slate-700 border border-slate-300"
  else if String.eqb s "completed" then
    mkStatusBadge "Completed" "bg-blue-100 text-blue-700 border border-blue-300"
  else mkStatusBadge status "bg-slate-100 text-slate-700 border border-slate-300".

(** The calendar fields of a valid [Date]: [getFullYear()], [getMonth()]
    and [getDate()]. *)
Record Calendar : Type := mkCalendar {
  getFullYear : Z;
  getMonth : Z;
  getDate : Z
}.

(** [calculateAge(dob)], given the calendar fields of [new Date(dob)] and
    of [new Date()]. *)
Definition calculateAge (birthDate today : Calendar) : Z :=
  let age := getFullYear today - getFullYear birthDate in
  let monthDiff := getMonth today - getMonth birthDate in
  if (monthDiff <? 0) ||
     ((monthDiff =? 0) && (getDate today <? getDate birthDate))
  then age - 1
  else age.

End Utils.

Module ProgramForm.

(** [requiredInfoItems], in the key order of the form's default values. *)
Record RequiredInfoItems : Type := mkItems {
  testResults : bool;
  medication : bool;
  symptoms : bool;
  followup : bool
}.


(** [Object.entries(program.requiredInfoItems).filter(checked).map(key)]. *)
Definition requiredInfo (items : RequiredInfoItems) : list string :=
  map fst
    (List.filter snd
       [("testResults", testResults items); ("medication", medication items);
        ("symptoms", symptoms items); ("followup", followup items)]).


End ProgramForm.

Module ProgramUpdateForm.

(** [getRequiredInfoItems(requiredInfo)]: the checkboxes of a stored
    program; [requiredInfo?.includes(tag) || false]. *)
Definition getRequiredInfoItems (requiredInfo : option (list string))
  : ProgramForm.RequiredInfoItems :=
  let includes tag :=
    match requiredInfo with
    | Some tags => existsb (String.eqb tag) tags
    | None => false
    end in
  ProgramForm.mkItems (includes "testResults") (includes "medication")
                      (includes "symptoms") (includes "followup").

End ProgramUpdateForm.

Module ProgramCard.

(** [code.charAt(0)]: the first character, or the empty string. *)
Definition charAt0 (s : string) : string :=
  match s with
  | EmptyString => EmptyString
  | String c _ => String c EmptyString
  end.

(** The [gradientClass] of a program card. *)
Definition gradientClass (code : string) : string :=
  let programCodeFirstLetter := Js.toLowerCase (charAt0 code) in
  if Js.includes programCodeFirstLetter "abcde" then "from-primary to-secondary"
  else if Js.includes programCodeFirstLetter "fghij" then "from-secondary to-accent"
  else if Js.includes programCodeFirstLetter "klmno" then "from-accent to-primary"
  else if Js.includes programCodeFirstLetter "pqrst" then "from-secondary to-primary"
  else "from-accent to-secondary".

End ProgramCard.

Module ClientsPage.






End ClientsPage.

(* ===================================================================== *)
(** ** Vocabulary of the statements *)
(* ===================================================================== *)

Definition has_client (db : Db) (id : Z) : bool :=
  existsb (fun c => c_id c =? id) (clients db).

Definition has_program (db : Db) (id : Z) : bool :=
  existsb (fun p => p_id p =? id) (programs db).

Definition has_code (db : Db) (code : string) : bool :=
  existsb (fun p => String.eqb (p_code p) code) (programs db).

Definition has_clientId (db : Db) (clientId : string) : bool :=
  existsb (fun c => String.eqb (c_clientId c) clientId) (clients db).

Definition has_enrollment (db : Db) (clientId programId : Z) : bool :=
  existsb (same_pair clientId programId) (enrollments db).

(** The numbers that an [integer] column and a query parameter compared
    with one can hold. *)
Definition int4 (n : Z) : bool :=
  (-2147483648 <=? n) && (n <=? 2147483647).

(** A string of ASCII characters. *)
Definition ascii_only (s : string) : bool :=
  Js.all_chars (fun c => (nat_of_ascii c <? 128)%nat) s.


(** The outcome [out] of an operation run on [db] is no [ConflictError]
    and leaves every program and every client of [db] in place. *)
Definition keeps_parents {A} (db : Db) (out : (Exn + A) * Db) : Prop :=
  (forall m, fst out <> inl (ConflictError m)) /\
  (exists l, programs (snd out) = programs db ++ l) /\
  (exists l, clients (snd out) = clients db ++ l).

(** What is sent as [enrollmentCount] for a program with [n] enrollments:
    the number 0, or the decimal text of [n]. *)
Definition count_sent (n : nat) : StringOrNumber :=
  if (n =? 0)%nat then IsNumber 0 else IsString (Js.String_of (Z.of_nat n)).

(** The number of enrollment rows of a program. *)
Definition enrollments_of (db : Db) (programId : Z) : nat :=
  length (List.filter (fun e => e_programId e =? programId) (enrollments db)).

(** The largest client id of a table, [None] when it is empty. *)
Definition max_client_id (cs : list Client) : option Z :=
  match cs with
  | [] => None
  | c :: cs' => Some (fold_right Z.max (c_id c) (map c_id cs'))
  end.



(** Sample rows for the examples. *)
Definition john : Client :=
  mkClient 1 "HIS-2025-001" "John Doe" "1990-04-12" "male" "0712345678"
           "12 Moi Avenue" None "0798765432" "active" (Some 1735689600000).

Definition tb : Program :=
  mkProgram 1 "Tuberculosis (TB)" "TB" "Prevention and treatment of tuberculosis"
            (Some ["testResults"; "medication"; "symptoms"; "followup"]).

Definition john_in_tb : Enrollment :=
  mkEnrollment 1 1 1 1735689600000 None "active" (Some "mild") (Some "low")
               (Some false).

Definition empty_db : Db := mkDb [] 1 [] 1 [] 1 [] [] 1735689600000.

Definition sample_db : Db :=
  mkDb [tb] 2 [john] 2 [john_in_tb] 2 [] [] 1735689600000.

(** A database with John and the TB program and no enrollment. *)
Definition open_db : Db := mkDb [tb] 2 [john] 2 [] 1 [] [] 1735689600000.

(** [new Date] at the one literal the examples use:
    [new Date("2025-01-01")] is midnight UTC of that day.  No example
    applies it to another string. *)
Definition sample_new_Date (s : string) : Js.Date :=
  if String.eqb s "2025-01-01" then Js.ValidDate 1735689600000 else Js.InvalidDate.

(** The body of a request that enrolls John in the TB program. *)
Definition enroll_john_in_tb : gmap string Json :=
  <["clientId" := JNum 1]> (<["programId" := JNum 1]>
    (<["enrollDate" := JStr "2025-01-01"]> ∅)).

(** A request that enrolls John in the TB program with assessment values
    outside the sets of the enrollment form. *)
Definition enroll_john_catastrophic : gmap string Json :=
  <["symptomSeverity" := JStr "catastrophic"]>
    (<["riskLevel" := JStr "extreme"]> enroll_john_in_tb).

(** The string and boolean fields of a request body, [None] when the key
    is absent or holds another kind of value. *)
Definition body_string (body : gmap string Json) (key : string) : option string :=
  match body !! key with
  | Some (JStr s) => Some s
  | _ => None
  end.

Definition body_bool (body : gmap string Json) (key : string) : option bool :=
  match body !! key with
  | Some (JBool b) => Some b
  | _ => None
  end.

(** The row that [enroll_john_in_tb] leaves in [open_db]. *)
Definition john_in_tb_default : Enrollment :=
  mkEnrollment 1 1 1 1735689600000 None "active" None None (Some false).


Definition lowercase_tb : Program :=
  mkProgram 2 "Tuberculosis again" "tb" "A second TB program" None.

(** A registration that leaves the client id to the server. *)
Definition mary : InsertClient :=
  mkInsertClient None "Mary Wanjiku" "1988-11-02" "female" "0700111222"
                 "4 Kenyatta Road" None "0700333444" None.

(** The sequence number of the next generated client id. *)
Definition next_sequence_number (db : Db) : Z :=
  match max_client_id (clients db) with
  | Some m => m + 1
  | None => 1
  end.

(** The sequences of the [serial] columns are ahead of every stored id. *)
Definition sequences_ahead (db : Db) : Prop :=
  Forall (fun p => p_id p < programs_seq db) (programs db) /\
  Forall (fun c => c_id c < clients_seq db) (clients db) /\
  Forall (fun e => e_id e < enrollments_seq db) (enrollments db).

(** The pair that the unique constraint of [enrollments] is on. *)
Definition pair_of (e : Enrollment) : Z * Z := (e_clientId e, e_programId e).

Definition refers_to_client (cs : list Client) (id : Z) : bool :=
  existsb (fun c => c_id c =? id) cs.

Definition refers_to_program (ps : list Program) (id : Z) : bool :=
  existsb (fun p => p_id p =? id) ps.

(** The constraints that [shared/schema.ts] declares, as a property of
    the rows: primary keys, the unique columns, the unique pair of an
    enrollment, and the foreign keys of enrollments, visits and notes. *)
Definition tables_ok (ps : list Program) (cs : list Client)
    (es : list Enrollment) (vs : list Visit) (ns : list Note) : Prop :=
  NoDup (map p_id ps) /\
  NoDup (map p_code ps) /\
  NoDup (map c_id cs) /\
  NoDup (map c_clientId cs) /\
  NoDup (map e_id es) /\
  NoDup (map pair_of es) /\
  Forall (fun e => refers_to_client cs (e_clientId e) = true /\
                   refers_to_program ps (e_programId e) = true) es /\
  NoDup (map v_id vs) /\
  Forall (fun v => refers_to_client cs (v_clientId v) = true /\
                   refers_to_program ps (v_programId v) = true) vs /\
  NoDup (map n_id ns) /\
  Forall (fun n => refers_to_client cs (n_clientId n) = true /\
                   match n_programId n with
                   | Some pid => refers_to_program ps pid = true
                   | None => True
                   end) ns.

Definition integrity (db : Db) : Prop :=
  tables_ok (programs db) (clients db) (enrollments db) (visits db) (notes db).

(** A registration that supplies its own client id, the one the server
    would generate for the third client of 2025. *)
Definition peter : InsertClient :=
  mkInsertClient (Some "HIS-2025-003") "Peter Otieno" "1979-06-30" "male"
                 "0711222333" "9 Oginga Street" None "0711444555" None.

Definition peter_row : Client :=
  mkClient 2 "HIS-2025-003" "Peter Otieno" "1979-06-30" "male" "0711222333"
           "9 Oginga Street" None "0711444555" "active" (Some 1735689600000).

(** John and Peter registered: the next generated id is Peter's. *)
Definition crowded_db : Db :=
  mkDb [tb] 2 [john; peter_row] 3 [john_in_tb] 2 [] [] 1735689600000.

(** A database with a visit and two notes of John, one of the notes
    without a program. *)
Definition john_visit : Visit :=
  mkVisit 1 1 1 1735689600000 "Dr. Achieng" "Sputum test".

Definition john_note_tb : Note :=
  mkNote 1 1 (Some 1) "Started treatment" "admin" 1735689600000.

Definition john_note_general : Note :=
  mkNote 2 1 None "Prefers morning appointments" "admin" 1735689600000.

Definition clinic_db : Db :=
  mkDb [tb] 2 [john] 2 [john_in_tb] 2 [john_visit]
       [john_note_tb; john_note_general] 1735689600000.

(** The body of a registration request for Peter, with his own client
    id, and of a note for a client that is not stored. *)
Definition register_peter : gmap string Json :=
  <["clientId" := JStr "HIS-2025-003"]>
    (<["name" := JStr "Peter Otieno"]>
       (<["dob" := JStr "1979-06-30"]>
          (<["gender" := JStr "male"]>
             (<["phone" := JStr "0711222333"]>
                (<["address" := JStr "9 Oginga Street"]>
                   (<["emergencyContact" := JStr "0711444555"]> ∅)))))).


Definition note_for_nobody : gmap string Json :=
  <["clientId" := JNum 7]>
    (<["content" := JStr "Called twice"]> (<["createdBy" := JStr "admin"]> ∅)).

(** [parseInt] at the literals the examples use: ["1"] is 1 and ["7"] is
    7.  No example applies it to another string. *)
Definition sample_parseInt (s : string) : option Z :=
  if String.eqb s "1" then Some 1
  else if String.eqb s "7" then Some 7
  else None.

(** A note for John without a program. *)
Definition note_for_john : gmap string Json :=
  <["clientId" := JNum 1]>
    (<["content" := JStr "Prefers morning appointments"]>
       (<["createdBy" := JStr "admin"]> ∅)).




(** The request for a visit of John to the TB program, and the row it
    leaves in [sample_db]. *)
Definition visit_of_john : InsertVisit :=
  mkInsertVisit 1 1 (Some (Js.ValidDate 1735689600000)) "Dr. Achieng" "Sputum test".

(** The number that a string of decimal digits denotes, leading zeros
    allowed. *)
Definition digits_value (s : string) : option Z :=
  Z.of_uint <$> NilEmpty.uint_of_string s.

(** The number that an [enrollmentCount] denotes: the number itself, or
    the number written by the text. *)
Definition count_value (v : StringOrNumber) : option Z :=
  match v with
  | IsString s => digits_value s
  | IsNumber n => Some n
  end.

(* ===================================================================== *)
(** ** Facts about lists and the state monad *)
(* ===================================================================== *)

Lemma existsb_filter_nonempty {A} (f : A -> bool) (l : list A) :
  (0 <? Z.of_nat (length (List.filter f l))) = existsb f l.
Proof.
  induction l as [|a l IH]; simpl; [reflexivity|].
  destruct (f a); simpl; [|exact IH].
  apply Z.ltb_lt. lia.
Qed.

Lemma filter_none {A} (f : A -> bool) (l : list A) :
  existsb f l = false -> List.filter f l = [].
Proof.
  induction l as [|a l IH]; simpl; [reflexivity|].
  destruct (f a); simpl; [discriminate|exact IH].
Qed.

Lemma filter_some {A} (f : A -> bool) (l : list A) :
  existsb f l = true -> exists a r, List.filter f l = a :: r.
Proof.
  induction l as [|a l IH]; simpl; [discriminate|].
  destruct (f a); simpl; eauto.
Qed.



(* ===================================================================== *)
(** ** Unenrolling *)
(* ===================================================================== *)



(* ===================================================================== *)
(** ** Enrolling: the existence checks of the route *)
(* ===================================================================== *)

Lemma getClientById_run (id : Z) (db : Db) :
  Storage.getClientById id db =
    (inr (first (List.filter (fun c => c_id c =? id) (clients db))), db).
Proof. reflexivity. Qed.

Lemma getProgramById_run (id : Z) (db : Db) :
  Storage.getProgramById id db =
    (inr (first (List.filter (fun p => p_id p =? id) (programs db))), db).
Proof. reflexivity. Qed.

Lemma getClientById_missing (id : Z) (db : Db) :
  has_client db id = false -> Storage.getClientById id db = (inr None, db).
Proof.
  intros H. rewrite getClientById_run, (filter_none _ _ H). reflexivity.
Qed.

Lemma getClientById_present (id : Z) (db : Db) :
  has_client db id = true ->
  exists c, Storage.getClientById id db = (inr (Some c), db).
Proof.
  intros H. rewrite getClientById_run.
  destruct (filter_some _ _ H) as (c & r & ->). eauto.
Qed.


Lemma getProgramById_present (id : Z) (db : Db) :
  has_program db id = true ->
  exists p, Storage.getProgramById id db = (inr (Some p), db).
Proof.
  intros H. rewrite getProgramById_run.
  destruct (filter_some _ _ H) as (p & r & ->). eauto.
Qed.



(* ===================================================================== *)
(** ** Listing clients *)
(* ===================================================================== *)

#[local] Instance newer_trans : Transitive newer.
Proof. unfold newer. intros a b c ? ?. lia. Qed.

#[local] Instance newer_total : Total newer.
Proof. unfold newer. intros a b. lia. Qed.

Lemma order_by_id_desc_perm (cs : list Client) : order_by_id_desc cs ≡ₚ cs.
Proof. apply merge_sort_Permutation. Qed.

Lemma order_by_id_desc_sorted (cs : list Client) :
  StronglySorted newer (order_by_id_desc cs).
Proof. apply StronglySorted_merge_sort; apply _. Qed.

(** C10.  [GET /api/clients?search=] with an empty search string takes
    the [getClients] branch: the answer is 200 with every client, newest
    first by id, and the database is untouched.  [searchClients] would
    have answered the empty list for the same string, but this request
    never calls it. *)
Theorem GET_clients_empty_search (db : Db) :
  Routes.GET_clients (Some "") db =
    (inr (mkResponse 200 (ManyClients (order_by_id_desc (clients db)))), db) /\
  Storage.getClients db = (inr (order_by_id_desc (clients db)), db) /\
  order_by_id_desc (clients db) ≡ₚ clients db /\
  StronglySorted (fun a b => c_id b <= c_id a) (order_by_id_desc (clients db)) /\
  Routes.GET_clients None db = Routes.GET_clients (Some "") db /\
  Storage.searchClients "" db = (inr [], db).
Proof.
  repeat split.
  - apply order_by_id_desc_perm.
  - apply order_by_id_desc_sorted.
Qed.

(* ===================================================================== *)
(** ** Programs with their enrollment counts *)
(* ===================================================================== *)

Lemma foldl_set_lookup {V} (f : Z -> V) (keys : list Z) (m : gmap Z V) (k : Z) :
  foldl (fun m r => <[fst r := snd r]> m) m (map (fun k => (k, f k)) keys) !! k
  = if decide (k ∈ keys) then Some (f k) else m !! k.
Proof.
  revert m. induction keys as [|k0 keys IH]; intros m; simpl.
  - reflexivity.
  - rewrite IH. destruct (decide (k ∈ keys)) as [Hin|Hin].
    + rewrite decide_True; [reflexivity|]. by right.
    + destruct (decide (k = k0)) as [->|Hne].
      * rewrite lookup_insert_eq, decide_True; [reflexivity|]. by left.
      * rewrite lookup_insert_ne by congruence.
        rewrite decide_False; [reflexivity|].
        intros H. apply elem_of_cons in H. tauto.
Qed.

Lemma no_rows_of_absent_program (es : list Enrollment) (k : Z) :
  k ∉ map e_programId es ->
  List.filter (fun e => e_programId e =? k) es = [].
Proof.
  induction es as [|e es IH]; simpl; intros H; [reflexivity|].
  destruct (Z.eqb_spec (e_programId e) k) as [Heq|Hne].
  - exfalso. apply H. rewrite Heq. by left.
  - apply IH. intros Hin. apply H. by right.
Qed.

Lemma rows_of_present_program (es : list Enrollment) (k : Z) :
  k ∈ map e_programId es ->
  length (List.filter (fun e => e_programId e =? k) es) <> 0%nat.
Proof.
  induction es as [|e es IH]; simpl; intros H.
  - by apply elem_of_nil in H.
  - destruct (Z.eqb_spec (e_programId e) k) as [Heq|Hne]; [discriminate|].
    apply IH. apply elem_of_cons in H. destruct H as [H|H]; [congruence|exact H].
Qed.

Lemma String_of_not_empty (n : Z) : String.eqb (Js.String_of n) "" = false.
Proof.
  destruct n as [|p|p]; [reflexivity| |reflexivity].
  unfold Js.String_of. simpl. destruct (Pos.to_uint p); reflexivity.
Qed.

Lemma enrollmentCountMap_get (es : list Enrollment) (k : Z) :
  Storage.get_or_0 (Storage.enrollmentCountMap (Storage.enrollmentCounts es)) k
  = count_sent (length (List.filter (fun e => e_programId e =? k) es)).
Proof.
  unfold Storage.get_or_0, Storage.enrollmentCountMap, Storage.enrollmentCounts,
    count_sent.
  rewrite (foldl_set_lookup
             (fun k => Js.String_of
                         (Z.of_nat (length (List.filter
                                              (fun e => e_programId e =? k) es))))).
  destruct (decide (k ∈ remove_dups (map e_programId es))) as [Hin|Hin].
  - rewrite String_of_not_empty. rewrite elem_of_remove_dups in Hin.
    apply rows_of_present_program in Hin.
    apply Nat.eqb_neq in Hin. by rewrite Hin.
  - rewrite lookup_empty. rewrite elem_of_remove_dups in Hin.
    by rewrite no_rows_of_absent_program.
Qed.

(** C6 (what the code does).  [getProgramsWithEnrollmentCount] answers
    one entry for each row of [programs], in table order and carrying
    the program itself; the database is untouched.  The entry of a
    program that no enrollment refers to has the number 0 as its
    [enrollmentCount].  The entry of a program with enrollments has the
    decimal text of their number there, a string and not the number that
    the claim and the declared type speak of. *)
Theorem getProgramsWithEnrollmentCount_counts (db : Db) :
  exists result,
    Storage.getProgramsWithEnrollmentCount db = (inr result, db) /\
    map pwe_program result = programs db /\
    Forall (fun r => enrollmentCount r =
                     count_sent (enrollments_of db (p_id (pwe_program r))))
           result /\
    Forall (fun r => has_program db (p_id (pwe_program r)) = true) result.
Proof.
  exists (map (fun p => mkProgramWithEnrollments p
                          (count_sent (enrollments_of db (p_id p))))
              (programs db)).
  assert (Hall : List.filter (fun _ : Program => true) (programs db) = programs db).
  { induction (programs db) as [|p ps IH]; simpl; congruence. }
  split; [|split; [|split]].
  - unfold Storage.getProgramsWithEnrollmentCount, Storage.getPrograms, select,
      bind, ret. rewrite Hall. f_equal. f_equal.
    apply map_ext. intros p. f_equal. apply enrollmentCountMap_get.
  - rewrite map_map. simpl. apply map_id.
  - apply Forall_map. simpl. apply Forall_true. reflexivity.
  - apply Forall_map. simpl. apply Forall_forall. intros p Hp.
    unfold has_program. apply existsb_exists. exists p. split.
    + by apply list_elem_of_In.
    + apply Z.eqb_refl.
Qed.

Example getProgramsWithEnrollmentCount_text :
  Storage.getProgramsWithEnrollmentCount sample_db =
    (inr [mkProgramWithEnrollments tb (IsString "1")], sample_db).
Proof. vm_compute. reflexivity. Qed.

Example getProgramsWithEnrollmentCount_no_enrollment :
  Storage.getProgramsWithEnrollmentCount open_db =
    (inr [mkProgramWithEnrollments tb (IsNumber 0)], open_db).
Proof. vm_compute. reflexivity. Qed.

(* ===================================================================== *)
(** ** Enrolling twice *)
(* ===================================================================== *)

(** Whatever [INSERT INTO enrollments] throws, it is not a
    [ConflictError], its message does not contain ["already enrolled"],
    and the rows of the table are the ones from before. *)
Lemma insert_enrollment_throws (v : InsertEnrollment) (db db' : Db) (e : Exn) :
  insert_enrollment v db = (inl e, db') ->
  (forall m, e <> ConflictError m) /\
  Js.includes "already enrolled" (message e) = false /\
  enrollments db' = enrollments db.
Proof.
  unfold insert_enrollment. intros H.
  destruct (ie_enrollDate v) as [[ms|]|];
    repeat match type of H with
           | (if ?c then _ else _) = _ => destruct c
           end;
    inversion H; subst; clear H;
    (split; [intros m; discriminate | split; [vm_compute; reflexivity | reflexivity]]).
Qed.

(** A second insert of an existing pair is always rejected. *)
Lemma insert_enrollment_duplicate (v : InsertEnrollment) (db : Db) :
  has_enrollment db (ie_clientId v) (ie_programId v) = true ->
  exists e db', insert_enrollment v db = (inl e, db').
Proof.
  unfold has_enrollment, insert_enrollment. intros H.
  destruct (ie_enrollDate v) as [[ms|]|]; rewrite ?H;
    repeat match goal with
           | |- context [if ?c then _ else _] => destruct c
           end; eauto.
Qed.

(** C1 (what the code does).  When the pair of a validated request is
    already enrolled, [createEnrollment] throws the driver's error as it
    is: not a [ConflictError], and with a message that lacks the words
    the route looks for.  The route therefore answers 500 with its
    generic message instead of 409.  The existing rows are unmodified. *)
Theorem POST_enrollments_duplicate
    (new_Date : string -> Js.Date) (body : gmap string Json)
    (data : InsertEnrollment) (db : Db) :
  Routes.createEnrollmentSchema new_Date body = Some data ->
  has_client db (ie_clientId data) = true ->
  has_program db (ie_programId data) = true ->
  has_enrollment db (ie_clientId data) (ie_programId data) = true ->
  exists e db',
    Storage.createEnrollment data db = (inl e, db') /\
    (forall m, e <> ConflictError m) /\
    Js.includes "already enrolled" (message e) = false /\
    Routes.POST_enrollments new_Date body db =
      (inr (mkResponse 500 (Message "Failed to create enrollment")), db') /\
    enrollments db' = enrollments db.
Proof.
  intros Hparse Hc Hp Hdup.
  destruct (insert_enrollment_duplicate data db Hdup) as (e & db' & Hins).
  destruct (insert_enrollment_throws _ _ _ _ Hins) as (Hnc & Hmsg & Hrows).
  exists e, db'. repeat split; try assumption.
  unfold Routes.POST_enrollments, try_catch. rewrite Hparse.
  unfold bind at 1.
  destruct (getClientById_present _ _ Hc) as [c ->].
  unfold bind at 1.
  destruct (getProgramById_present _ _ Hp) as [p ->].
  unfold bind, Storage.createEnrollment. rewrite Hins, Hmsg. reflexivity.
Qed.

Lemma POST_enrollments_duplicate_witness :
  exists e db',
    Storage.createEnrollment
      (mkInsertEnrollment 1 1 (Some (Js.ValidDate 1735689600000))
                          None None None None None) sample_db = (inl e, db') /\
    (forall m, e <> ConflictError m) /\
    Js.includes "already enrolled" (message e) = false /\
    Routes.POST_enrollments sample_new_Date enroll_john_in_tb sample_db =
      (inr (mkResponse 500 (Message "Failed to create enrollment")), db') /\
    enrollments db' = enrollments sample_db.
Proof.
  apply (POST_enrollments_duplicate sample_new_Date enroll_john_in_tb
           (mkInsertEnrollment 1 1 (Some (Js.ValidDate 1735689600000))
                               None None None None None) sample_db);
    vm_compute; reflexivity.
Defined.

Example POST_enrollments_duplicate_run :
  Routes.POST_enrollments sample_new_Date enroll_john_in_tb sample_db =
    (inr (mkResponse 500 (Message "Failed to create enrollment")),
     set_enrollments [john_in_tb] 3 sample_db) /\
  Storage.createEnrollment
    (mkInsertEnrollment 1 1 (Some (Js.ValidDate 1735689600000))
                        None None None None None) sample_db =
    (inl (UniqueViolation "enrollments_client_id_program_id_unique"),
     set_enrollments [john_in_tb] 3 sample_db).
Proof. split; vm_compute; reflexivity. Qed.

(* ===================================================================== *)
(** ** What an accepted enrollment holds *)
(* ===================================================================== *)

Lemma insert_enrollment_returns (v : InsertEnrollment) (db db' : Db) (e : Enrollment) :
  insert_enrollment v db = (inr e, db') ->
  enrollments db' = enrollments db ++ [e] /\
  e_status e = default "active" (ie_status v) /\
  e_followUpRequired e = default (Some false) (ie_followUpRequired v) /\
  e_symptomSeverity e = ie_symptomSeverity v /\
  e_riskLevel e = ie_riskLevel v.
Proof.
  unfold insert_enrollment. intros H.
  destruct (ie_enrollDate v) as [[ms|]|];
    repeat match type of H with
           | (if ?c then _ else _) = _ => destruct c
           end;
    inversion H; subst; clear H; repeat split.
Qed.

(** Case analysis on the value a body holds under a key, keeping the
    cases the parse accepts. *)
Ltac zod_field body key H :=
  destruct (body !! key) as [[]|]; simpl in H; try discriminate H.

Lemma createEnrollmentSchema_fields
    (new_Date : string -> Js.Date) (body : gmap string Json)
    (data : InsertEnrollment) :
  Routes.createEnrollmentSchema new_Date body = Some data ->
  ie_status data = body_string body "status" /\
  ie_followUpRequired data = Some <$> body_bool body "followUpRequired" /\
  ie_symptomSeverity data = body_string body "symptomSeverity" /\
  ie_riskLevel data = body_string body "riskLevel".
Proof.
  unfold Routes.createEnrollmentSchema, body_string, body_bool. intros H.
  zod_field body "clientId" H. zod_field body "programId" H.
  zod_field body "enrollDate" H.
  zod_field body "notes" H; zod_field body "status" H;
  zod_field body "symptomSeverity" H; zod_field body "riskLevel" H;
  zod_field body "followUpRequired" H;
  simpl in H; inversion H; subst; clear H; repeat split.
Qed.

(** The ways [POST /api/enrollments] can answer 201. *)
Lemma POST_enrollments_created
    (new_Date : string -> Js.Date) (body : gmap string Json) (db db' : Db)
    (e : Enrollment) :
  Routes.POST_enrollments new_Date body db =
    (inr (mkResponse 201 (OneEnrollment e)), db') ->
  exists data,
    Routes.createEnrollmentSchema new_Date body = Some data /\
    insert_enrollment data db = (inr e, db').
Proof.
  unfold Routes.POST_enrollments, try_catch. intros H.
  destruct (Routes.createEnrollmentSchema new_Date body) as [data|];
    [|discriminate H].
  exists data. split; [reflexivity|].
  unfold bind at 1 in H. rewrite getClientById_run in H.
  destruct (first _); [|discriminate H].
  unfold bind at 1 in H. rewrite getProgramById_run in H.
  destruct (first _); [|discriminate H].
  unfold bind, Storage.createEnrollment, ret, throw in H.
  destruct (insert_enrollment data db) as [[err|e0] db0].
  - destruct (Js.includes _ _); discriminate H.
  - inversion H. reflexivity.
Qed.

(** A validated request is answered 201 when its client and program
    exist, the pair is not enrolled yet, the date is a valid one and the
    serial id is free. *)
Lemma POST_enrollments_accepts
    (new_Date : string -> Js.Date) (body : gmap string Json)
    (data : InsertEnrollment) (db : Db) :
  Routes.createEnrollmentSchema new_Date body = Some data ->
  has_client db (ie_clientId data) = true ->
  has_program db (ie_programId data) = true ->
  has_enrollment db (ie_clientId data) (ie_programId data) = false ->
  ie_enrollDate data <> Some Js.InvalidDate ->
  existsb (fun e => e_id e =? enrollments_seq db) (enrollments db) = false ->
  exists e db',
    Routes.POST_enrollments new_Date body db =
      (inr (mkResponse 201 (OneEnrollment e)), db').
Proof.
  intros Hparse Hc Hp Hnew Hdate Hfresh.
  unfold Routes.POST_enrollments, try_catch. rewrite Hparse.
  unfold bind at 1. destruct (getClientById_present _ _ Hc) as [c ->].
  unfold bind at 1. destruct (getProgramById_present _ _ Hp) as [p ->].
  unfold bind, Storage.createEnrollment, insert_enrollment.
  unfold has_client in Hc. unfold has_program in Hp.
  unfold has_enrollment in Hnew.
  destruct (ie_enrollDate data) as [[ms|]|]; [|congruence|];
    simpl; rewrite Hfresh, Hnew, Hc, Hp; simpl; eauto.
Qed.

(** C9 (as amended).  An enrollment that [POST /api/enrollments] stores
    is appended to the table; its [status] is the one supplied and
    ["active"] when none is; its [followUpRequired] is a boolean, [false]
    when none is supplied; its [symptomSeverity] and [riskLevel] are the
    strings of the request, whatever they are, and null when absent. *)
Theorem POST_enrollments_stored_values
    (new_Date : string -> Js.Date) (body : gmap string Json) (db db' : Db)
    (e : Enrollment) :
  Routes.POST_enrollments new_Date body db =
    (inr (mkResponse 201 (OneEnrollment e)), db') ->
  enrollments db' = enrollments db ++ [e] /\
  e_status e = default "active" (body_string body "status") /\
  e_followUpRequired e = Some (default false (body_bool body "followUpRequired")) /\
  e_symptomSeverity e = body_string body "symptomSeverity" /\
  e_riskLevel e = body_string body "riskLevel".
Proof.
  intros H.
  destruct (POST_enrollments_created _ _ _ _ _ H) as (data & Hparse & Hins).
  destruct (createEnrollmentSchema_fields _ _ _ Hparse) as (Hs & Hf & Hsev & Hrisk).
  destruct (insert_enrollment_returns _ _ _ _ Hins) as (Hrows & Hs' & Hf' & Hsev' & Hrisk').
  rewrite Hs in Hs'. rewrite Hf in Hf'. rewrite Hsev in Hsev'. rewrite Hrisk in Hrisk'.
  repeat split; try assumption.
  rewrite Hf'. destruct (body_bool body "followUpRequired"); reflexivity.
Qed.

Lemma POST_enrollments_stored_values_witness :
  enrollments (set_enrollments [john_in_tb_default] 2 open_db) =
    enrollments open_db ++ [john_in_tb_default] /\
  e_status john_in_tb_default =
    default "active" (body_string enroll_john_in_tb "status") /\
  e_followUpRequired john_in_tb_default =
    Some (default false (body_bool enroll_john_in_tb "followUpRequired")) /\
  e_symptomSeverity john_in_tb_default =
    body_string enroll_john_in_tb "symptomSeverity" /\
  e_riskLevel john_in_tb_default = body_string enroll_john_in_tb "riskLevel".
Proof.
  apply (POST_enrollments_stored_values sample_new_Date enroll_john_in_tb open_db).
  vm_compute. reflexivity.
Defined.

(** C9 (counterexample).  A request with [symptomSeverity] "catastrophic"
    and [riskLevel] "extreme" is answered 201 and the row is stored with
    these values. *)
Lemma POST_enrollments_stores_any_string :
  exists e db',
    Routes.POST_enrollments sample_new_Date enroll_john_catastrophic open_db =
      (inr (mkResponse 201 (OneEnrollment e)), db') /\
    In e (enrollments db') /\
    e_symptomSeverity e = Some "catastrophic" /\
    e_riskLevel e = Some "extreme" /\
    ~ In (e_symptomSeverity e) [Some "mild"; Some "moderate"; Some "severe"] /\
    ~ In (e_riskLevel e) [Some "low"; Some "medium"; Some "high"].
Proof.
  eexists. eexists. split; [vm_compute; reflexivity|].
  simpl. repeat split; try (left; reflexivity);
    intros H; repeat (destruct H as [H|H]; [discriminate H|]); exact H.
Qed.

(* ===================================================================== *)
(** ** Creating programs *)
(* ===================================================================== *)

Lemma getProgramByCode_run (code : string) (db : Db) :
  Storage.getProgramByCode code db =
    (inr (first (List.filter (fun p => String.eqb (p_code p) code) (programs db))), db).
Proof. reflexivity. Qed.






(* ===================================================================== *)
(** ** Programs and clients are never deleted *)
(* ===================================================================== *)

Lemma keeps_parents_same {A} (db db' : Db) (r : Exn + A) :
  programs db' = programs db -> clients db' = clients db ->
  (forall m, r <> inl (ConflictError m)) ->
  keeps_parents db (r, db').
Proof.
  intros Hp Hc Hr. split; [exact Hr|]. split; exists []; rewrite app_nil_r;
    assumption.
Qed.

(** C3 (what the code does).  [IStorage] declares no [deleteProgram]
    and no [deleteClient], and the routes register no handler for
    deleting a program or a client, so that no check of dependent
    enrollments is made anywhere.  Of the operations that the store does
    have, the writing ones on programs, clients, enrollments, visits and
    notes leave every stored program and every stored client in place,
    whether they return or throw, and what they throw is never a
    [ConflictError]. *)
Theorem store_never_deletes_parents (db : Db) :
  (forall program, keeps_parents db (Storage.createProgram program db)) /\
  (forall year client, keeps_parents db (Storage.createClient year client db)) /\
  (forall enrollment, keeps_parents db (Storage.createEnrollment enrollment db)) /\
  (forall clientId programId,
      keeps_parents db (Storage.deleteEnrollment clientId programId db)) /\
  (forall nextval visit, keeps_parents db (Storage.createVisit nextval visit db)) /\
  (forall nextval note, keeps_parents db (Storage.createNote nextval note db)).
Proof.
  split; [|split; [|split; [|split; [|split]]]].
  - intros program. unfold Storage.createProgram, insert_program.
    repeat match goal with
           | |- context [if ?b then _ else _] => destruct b
           end;
      try (apply keeps_parents_same; [reflexivity..|discriminate]).
    split; [discriminate|]. split; [by eexists | by exists []; rewrite app_nil_r].
  - intros year client. unfold Storage.createClient, bind.
    destruct (Js.truthy (ic_clientId client)); simpl; unfold insert_client;
      repeat match goal with
             | |- context [if ?b then _ else _] => destruct b
             end;
      try (apply keeps_parents_same; [reflexivity..|discriminate]);
      (split; [discriminate|]);
      (split; [by exists []; rewrite app_nil_r | by eexists]).
  - intros enrollment. unfold Storage.createEnrollment, insert_enrollment.
    destruct (ie_enrollDate enrollment) as [[ms|]|];
      repeat match goal with
             | |- context [if ?b then _ else _] => destruct b
             end;
      apply keeps_parents_same; (reflexivity || discriminate).
  - intros clientId programId.
    apply keeps_parents_same; (reflexivity || discriminate).
  - intros nextval visit. unfold Storage.createVisit, insert_visit.
    destruct (iv_date visit) as [[ms|]|];
      repeat match goal with
             | |- context [if ?b then _ else _] => destruct b
             end;
      apply keeps_parents_same; (reflexivity || discriminate).
  - intros nextval note. unfold Storage.createNote, insert_note.
    repeat match goal with
           | |- context [if ?b then _ else _] => destruct b
           end;
      apply keeps_parents_same; (reflexivity || discriminate).
Qed.

(* ===================================================================== *)
(** ** Generated client ids *)
(* ===================================================================== *)

Lemma digits_of_uint (d : Decimal.uint) :
  Js.all_chars Js.is_digit (NilEmpty.string_of_uint d) = true.
Proof. induction d; simpl; auto. Qed.

Lemma String_of_digits (n : Z) :
  0 <= n -> Js.all_chars Js.is_digit (Js.String_of n) = true.
Proof.
  intros Hn. destruct n as [|p|p]; [reflexivity| |lia].
  unfold Js.String_of. simpl.
  destruct (Pos.to_uint p) as [|u|u|u|u|u|u|u|u|u|u]; try reflexivity;
    unfold NilZero.string_of_uint; apply digits_of_uint.
Qed.

Lemma padStart_3_digits (s : string) :
  Js.all_chars Js.is_digit s = true ->
  exists d1 d2 d3 rest,
    Js.padStart 3 "0" s = String d1 (String d2 (String d3 rest)) /\
    Js.is_digit d1 = true /\ Js.is_digit d2 = true /\ Js.is_digit d3 = true /\
    Js.all_chars Js.is_digit rest = true.
Proof.
  intros H. destruct s as [|a [|b [|c r]]]; simpl in H;
    repeat match type of H with
           | _ && _ = true => apply andb_prop in H; destruct H as [? H]
           end.
  - exists "0"%char, "0"%char, "0"%char, "". repeat split.
  - exists "0"%char, "0"%char, a, "". repeat split; assumption.
  - exists "0"%char, a, b, "". repeat split; assumption.
  - exists a, b, c, r. repeat split; assumption.
Qed.

Lemma padStart_3_upto_999 :
  forallb (fun k => String.eqb
                      (Js.padStart 3 "0" (Js.String_of (Z.of_nat k)))
                      (String.substring 0 3
                         (Js.padStart 3 "0" (Js.String_of (Z.of_nat k)))))
          (seq 0 1000) = true.
Proof. vm_compute. reflexivity. Qed.

Lemma padStart_3_exact (n : Z) :
  0 <= n <= 999 -> String.length (Js.padStart 3 "0" (Js.String_of n)) = 3%nat.
Proof.
  intros Hn.
  pose proof (proj1 (forallb_forall _ _) padStart_3_upto_999 (Z.to_nat n)) as H.
  assert (Hin : In (Z.to_nat n) (seq 0 1000)) by (apply in_seq; lia).
  apply H in Hin. cbv beta in Hin. rewrite Z2Nat.id in Hin by lia.
  apply String.eqb_eq in Hin.
  destruct (padStart_3_digits _ (String_of_digits n (proj1 Hn)))
    as (d1 & d2 & d3 & rest & Heq & _).
  rewrite Heq in Hin |- *. simpl in Hin.
  destruct rest; [reflexivity|]. simpl in Hin. discriminate Hin.
Qed.

Lemma fold_max_spec (x : Z) (l : list Z) :
  (fold_right Z.max x l = x \/ In (fold_right Z.max x l) l) /\
  x <= fold_right Z.max x l /\
  (forall y, In y l -> y <= fold_right Z.max x l).
Proof.
  induction l as [|a l (Hmem & Hx & Hall)]; simpl.
  - repeat split; [by left|lia|tauto].
  - repeat split.
    + destruct (Z.max_spec a (fold_right Z.max x l)) as [[_ ->]|[_ ->]];
        [tauto|by right; left].
    + lia.
    + intros y [->|Hy]; [lia|]. specialize (Hall y Hy). lia.
Qed.

(** The largest id is the id of some client and bounds every id. *)
Lemma max_client_id_spec (cs : list Client) (m : Z) :
  max_client_id cs = Some m ->
  (exists c, In c cs /\ c_id c = m) /\ (forall c, In c cs -> c_id c <= m).
Proof.
  destruct cs as [|c0 cs]; simpl; [discriminate|]. intros [= <-].
  destruct (fold_max_spec (c_id c0) (map c_id cs)) as (Hmem & Hx & Hall). split.
  - destruct Hmem as [->|Hin]; [exists c0; tauto|].
    apply in_map_iff in Hin. destruct Hin as (c & Hc & Hin).
    exists c. tauto.
  - intros c [<-|Hin]; [exact Hx|]. apply Hall, in_map. exact Hin.
Qed.

(** [ORDER BY id DESC LIMIT 1] reads the largest id. *)
Lemma latest_client_is_max (cs : list Client) :
  c_id <$> head (take 1 (order_by_id_desc cs)) = max_client_id cs.
Proof.
  pose proof (order_by_id_desc_perm cs) as Hperm.
  pose proof (order_by_id_desc_sorted cs) as Hsorted.
  destruct (order_by_id_desc cs) as [|x l].
  - apply Permutation_nil_l in Hperm. subst cs. reflexivity.
  - simpl. destruct (max_client_id cs) as [m|] eqn:Hmax.
    + f_equal. destruct (max_client_id_spec _ _ Hmax) as ((c & Hc & <-) & Hall).
      apply StronglySorted_inv in Hsorted. destruct Hsorted as [_ Hx].
      assert (c_id x <= c_id c).
      { apply Hall, list_elem_of_In. rewrite <- Hperm. by left. }
      assert (c_id c <= c_id x).
      { apply list_elem_of_In in Hc. rewrite <- Hperm in Hc.
        apply elem_of_cons in Hc. destruct Hc as [->|Hc]; [lia|].
        rewrite Forall_forall in Hx. apply (Hx c Hc). }
      lia.
    + destruct cs; [|discriminate Hmax].
      apply Permutation_nil_r in Hperm. discriminate Hperm.
Qed.

Lemma nextClientId_run (year : Z) (db : Db) :
  Storage.nextClientId year db =
    (inr (Utils.generateClientId year (next_sequence_number db)), db).
Proof.
  unfold Storage.nextClientId, next_sequence_number, Utils.generateClientId.
  rewrite <- latest_client_is_max.
  destruct (take 1 (order_by_id_desc (clients db))) as [|latest ?]; reflexivity.
Qed.

Lemma positive_ids_next (db : Db) :
  forallb (fun c => 0 <? c_id c) (clients db) = true ->
  1 <= next_sequence_number db.
Proof.
  intros Hpos. unfold next_sequence_number.
  destruct (max_client_id (clients db)) as [m|] eqn:Hmax; [|lia].
  destruct (max_client_id_spec _ _ Hmax) as ((c & Hc & <-) & _).
  rewrite forallb_forall in Hpos. specialize (Hpos c Hc).
  apply Z.ltb_lt in Hpos. lia.
Qed.

(** C4.  For a [createClient] call without a [clientId] (the field is
    [undefined] or empty), with the serial ids positive: the id built for
    the record is ["HIS-"], the current year, a hyphen and the sequence
    number padded with zeros to three digits, the sequence number being
    the largest client id plus one, and 1 for an empty table; it is the
    id [generateClientId] gives for that number; its third part is at
    least three digits and exactly three up to 999.  Every record the
    call returns carries this id and is the row appended to the table;
    and the call does return a record when neither the serial id nor the
    generated id is taken. *)
Theorem createClient_generated_id (year : Z) (client : InsertClient) (db : Db) :
  Js.truthy (ic_clientId client) = false ->
  forallb (fun c => 0 <? c_id c) (clients db) = true ->
  let generated :=
    "HIS-" +:+ Js.String_of year +:+ "-" +:+
    Js.padStart 3 "0" (Js.String_of (next_sequence_number db)) in
  generated = Utils.generateClientId year (next_sequence_number db) /\
  (exists d1 d2 d3 rest,
      generated =
        "HIS-" +:+ Js.String_of year +:+ "-" +:+ String d1 (String d2 (String d3 rest)) /\
      Js.is_digit d1 = true /\ Js.is_digit d2 = true /\ Js.is_digit d3 = true /\
      Js.all_chars Js.is_digit rest = true /\
      (next_sequence_number db <= 999 -> rest = "")) /\
  (forall c db',
      Storage.createClient year client db = (inr c, db') ->
      c_clientId c = generated /\ clients db' = clients db ++ [c]) /\
  (has_client db (clients_seq db) = false ->
   has_clientId db generated = false ->
   exists c db', Storage.createClient year client db = (inr c, db')).
Proof.
  intros Hfalsy Hpos generated.
  assert (Hrun : Storage.createClient year client db
                 = insert_client client generated db).
  { unfold Storage.createClient, bind. rewrite Hfalsy, nextClientId_run.
    reflexivity. }
  pose proof (positive_ids_next db Hpos) as Hnext.
  split; [reflexivity|]. split; [|split].
  - destruct (padStart_3_digits (Js.String_of (next_sequence_number db)))
      as (d1 & d2 & d3 & rest & Heq & H1 & H2 & H3 & Hrest).
    { apply String_of_digits. lia. }
    exists d1, d2, d3, rest. subst generated. rewrite Heq.
    repeat split; try assumption.
    intros Hle. pose proof (padStart_3_exact (next_sequence_number db)) as Hlen.
    rewrite Heq in Hlen. destruct rest; [reflexivity|].
    simpl in Hlen. specialize (Hlen ltac:(lia)). discriminate Hlen.
  - intros c db'. rewrite Hrun. unfold insert_client.
    repeat match goal with
           | |- context [if ?b then _ else _] => destruct b
           end; intros [= <- <-]; split; reflexivity.
  - intros Hid Hcid. rewrite Hrun. unfold insert_client.
    unfold has_client in Hid. unfold has_clientId in Hcid. simpl.
    rewrite Hid, Hcid. eauto.
Qed.

Lemma createClient_generated_id_witness :
  exists c db',
    Storage.createClient 2025 mary sample_db = (inr c, db') /\
    c_clientId c = "HIS-2025-002" /\
    clients db' = clients sample_db ++ [c].
Proof.
  destruct (createClient_generated_id 2025 mary sample_db eq_refl eq_refl)
    as (_ & _ & Hret & Hex).
  destruct (Hex eq_refl eq_refl) as (c & db' & Hrun).
  exists c, db'. split; [exact Hrun|]. apply (Hret c db' Hrun).
Defined.

Example createClient_first_id :
  fst (Storage.createClient 2025 mary empty_db) =
    inr (mkClient 1 "HIS-2025-001" "Mary Wanjiku" "1988-11-02" "female"
                  "0700111222" "4 Kenyatta Road" None "0700333444" "active"
                  (Some 1735689600000)).
Proof. vm_compute. reflexivity. Qed.

(* ===================================================================== *)
(** ** Searching clients *)
(* ===================================================================== *)



Lemma like_percent_unfold (p s : string) :
  Pg.like (String "%" p) s =
    Pg.like p s ||
    match s with
    | EmptyString => false
    | String _ s' => Pg.like (String "%" p) s'
    end.
Proof. destruct s; reflexivity. Qed.

Lemma like_percent_all (s : string) : Pg.like "%" s = true.
Proof.
  induction s as [|c s IH]; [reflexivity|].
  rewrite like_percent_unfold, IH. apply orb_true_r.
Qed.











Example searchClients_wildcard :
  Js.includes "%" (c_name john) = false /\
  Storage.searchClients "%" sample_db = (inr [john], sample_db).
Proof. split; vm_compute; reflexivity. Qed.

(* ===================================================================== *)
(** ** Invariants of the store *)
(* ===================================================================== *)

Lemma ahead_fresh {A} (f : A -> Z) (l : list A) (seq : Z) :
  Forall (fun a => f a < seq) l -> existsb (fun a => f a =? seq) l = false.
Proof.
  induction 1 as [|a l Ha _ IH]; simpl; [reflexivity|].
  rewrite IH, orb_false_r. apply Z.eqb_neq. lia.
Qed.

Lemma ahead_step {A} (f : A -> Z) (l : list A) (seq : Z) :
  Forall (fun a => f a < seq) l -> Forall (fun a => f a < seq + 1) l.
Proof.
  intros H. eapply Forall_impl; [exact H|]. intros a Ha. simpl in *. lia.
Qed.

Lemma ahead_snoc {A} (f : A -> Z) (l : list A) (x : A) :
  Forall (fun a => f a < f x) l -> Forall (fun a => f a < f x + 1) (l ++ [x]).
Proof.
  intros H. apply Forall_app. split; [by apply ahead_step|].
  apply Forall_singleton. lia.
Qed.

Lemma insert_program_ahead (v : InsertProgram) (db : Db) :
  sequences_ahead db ->
  sequences_ahead (snd (insert_program v db)) /\
  fst (insert_program v db) <> inl (UniqueViolation "programs_pkey").
Proof.
  intros (Hp & Hc & He). unfold insert_program. simpl.
  rewrite (ahead_fresh _ _ _ Hp).
  destruct (existsb _ _); simpl; (split; [|discriminate]);
    (split; [|split; assumption]); simpl;
    [by apply ahead_step | by apply (ahead_snoc p_id _ (mkProgram _ _ _ _ _))].
Qed.

Lemma insert_client_ahead (v : InsertClient) (clientId : string) (db : Db) :
  sequences_ahead db ->
  sequences_ahead (snd (insert_client v clientId db)) /\
  fst (insert_client v clientId db) <> inl (UniqueViolation "clients_pkey").
Proof.
  intros (Hp & Hc & He). unfold insert_client. simpl.
  rewrite (ahead_fresh _ _ _ Hc).
  destruct (existsb _ _); simpl; (split; [|discriminate]);
    (split; [assumption|split; [|assumption]]); simpl;
    [by apply ahead_step
    | by apply (ahead_snoc c_id _ (mkClient _ _ _ _ _ _ _ _ _ _ _))].
Qed.

Lemma insert_enrollment_ahead (v : InsertEnrollment) (db : Db) :
  sequences_ahead db ->
  sequences_ahead (snd (insert_enrollment v db)) /\
  fst (insert_enrollment v db) <> inl (UniqueViolation "enrollments_pkey").
Proof.
  intros (Hp & Hc & He). unfold insert_enrollment.
  destruct (ie_enrollDate v) as [[ms|]|]; simpl;
    rewrite ?(ahead_fresh _ _ _ He);
    repeat match goal with
           | |- context [if ?b then _ else _] => destruct b
           end; simpl; (split; [|discriminate]);
    (split; [assumption|split; [assumption|]]); simpl;
    first [ assumption
          | by apply ahead_step
          | by apply (ahead_snoc e_id _ (mkEnrollment _ _ _ _ _ _ _ _ _)) ].
Qed.

(** X1.  In a database whose sequences are ahead of every stored id, no
    insert of the store is rejected for its primary key, and every
    operation of the store, whether it succeeds or throws, leaves the
    sequences ahead. *)
Theorem store_keeps_sequences_ahead (db : Db) :
  sequences_ahead db ->
  (forall program,
      sequences_ahead (snd (Storage.createProgram program db)) /\
      fst (Storage.createProgram program db) <> inl (UniqueViolation "programs_pkey")) /\
  (forall year client,
      sequences_ahead (snd (Storage.createClient year client db)) /\
      fst (Storage.createClient year client db) <> inl (UniqueViolation "clients_pkey")) /\
  (forall enrollment,
      sequences_ahead (snd (Storage.createEnrollment enrollment db)) /\
      fst (Storage.createEnrollment enrollment db)
        <> inl (UniqueViolation "enrollments_pkey")) /\
  (forall clientId programId,
      sequences_ahead (snd (Storage.deleteEnrollment clientId programId db))).
Proof.
  intros Hahead. split; [|split; [|split]].
  - intros program. by apply insert_program_ahead.
  - intros year client. unfold Storage.createClient, bind.
    destruct (Js.truthy (ic_clientId client)); simpl;
      by apply insert_client_ahead.
  - intros enrollment. by apply insert_enrollment_ahead.
  - intros clientId programId. destruct Hahead as (Hp & Hc & He).
    unfold Storage.deleteEnrollment. simpl.
    split; [assumption|split; [assumption|]]. simpl.
    apply Forall_forall. intros e He'. apply list_elem_of_In, filter_In in He'.
    rewrite Forall_forall in He. apply He, list_elem_of_In, He'.
Qed.

Lemma sample_db_ahead : sequences_ahead sample_db.
Proof.
  repeat split; simpl; repeat constructor; simpl; lia.
Defined.

Lemma store_keeps_sequences_ahead_witness :
  sequences_ahead (snd (Storage.createClient 2025 mary sample_db)) /\
  fst (Storage.createClient 2025 mary sample_db)
    <> inl (UniqueViolation "clients_pkey").
Proof.
  destruct (store_keeps_sequences_ahead sample_db sample_db_ahead)
    as (_ & Hc & _).
  apply (Hc 2025 mary).
Defined.

Lemma not_in_map_Z {A} (f : A -> Z) (k : Z) (l : list A) :
  existsb (fun a => f a =? k) l = false -> k ∉ map f l.
Proof.
  intros H Hin. apply list_elem_of_In, in_map_iff in Hin.
  destruct Hin as (a & <- & Ha).
  assert (existsb (fun a0 => f a0 =? f a) l = true); [|congruence].
  apply existsb_exists. exists a. split; [exact Ha | apply Z.eqb_refl].
Qed.

Lemma not_in_map_string {A} (f : A -> string) (k : string) (l : list A) :
  existsb (fun a => String.eqb (f a) k) l = false -> k ∉ map f l.
Proof.
  intros H Hin. apply list_elem_of_In, in_map_iff in Hin.
  destruct Hin as (a & <- & Ha).
  assert (existsb (fun a0 => String.eqb (f a0) (f a)) l = true); [|congruence].
  apply existsb_exists. exists a. split; [exact Ha | apply String.eqb_refl].
Qed.

Lemma not_in_pairs (clientId programId : Z) (es : list Enrollment) :
  existsb (same_pair clientId programId) es = false ->
  (clientId, programId) ∉ map pair_of es.
Proof.
  intros H Hin. apply list_elem_of_In, in_map_iff in Hin.
  destruct Hin as (e & He & Hin). injection He as <- <-.
  assert (existsb (same_pair (e_clientId e) (e_programId e)) es = true);
    [|congruence].
  apply existsb_exists. exists e. split; [exact Hin|].
  unfold same_pair. by rewrite !Z.eqb_refl.
Qed.

Lemma NoDup_map_snoc {A K} (f : A -> K) (l : list A) (x : A) :
  NoDup (map f l) -> f x ∉ map f l -> NoDup (map f (l ++ [x])).
Proof.
  intros Hl Hx. rewrite map_app. apply NoDup_app. split; [exact Hl|]. split.
  - intros y Hy Hy'. simpl in Hy'. apply list_elem_of_singleton in Hy'.
    subst y. contradiction.
  - apply NoDup_singleton.
Qed.

Lemma NoDup_map_filter {A K} (f : A -> K) (g : A -> bool) (l : list A) :
  NoDup (map f l) -> NoDup (map f (List.filter g l)).
Proof.
  induction l as [|a l IH]; simpl; [trivial|].
  intros H. apply NoDup_cons in H. destruct H as [Ha Hl].
  destruct (g a); simpl; [|by apply IH].
  apply NoDup_cons. split; [|by apply IH].
  intros Hin. apply Ha. apply list_elem_of_In, in_map_iff in Hin.
  destruct Hin as (b & Hb & Hin). apply filter_In in Hin.
  apply list_elem_of_In, in_map_iff. exists b. tauto.
Qed.

Lemma Forall_filter_keep {A} (P : A -> Prop) (g : A -> bool) (l : list A) :
  Forall P l -> Forall P (List.filter g l).
Proof.
  intros H. apply Forall_forall. intros a Ha.
  apply list_elem_of_In, filter_In in Ha. rewrite Forall_forall in H.
  apply H, list_elem_of_In, Ha.
Qed.

Lemma refers_to_program_snoc (ps : list Program) (p : Program) (id : Z) :
  refers_to_program ps id = true -> refers_to_program (ps ++ [p]) id = true.
Proof.
  unfold refers_to_program. intros H. rewrite existsb_app, H. reflexivity.
Qed.

Lemma refers_to_client_snoc (cs : list Client) (c : Client) (id : Z) :
  refers_to_client cs id = true -> refers_to_client (cs ++ [c]) id = true.
Proof.
  unfold refers_to_client. intros H. rewrite existsb_app, H. reflexivity.
Qed.

(** Case analysis on the condition of the outermost conditional of the
    goal. *)
Ltac case_if H :=
  match goal with
  | |- context [if ?b then _ else _] => destruct b eqn:H
  end.

Lemma insert_program_integrity (v : InsertProgram) (db : Db) :
  integrity db -> integrity (snd (insert_program v db)).
Proof.
  unfold integrity, insert_program. intros H.
  case_if Hid; simpl; [exact H|].
  case_if Hcode; simpl; [exact H|].
  destruct H as (H1 & H2 & H3 & H4 & H5 & H6 & H7 & H8 & H9 & H10 & H11).
  repeat split; try assumption.
  - apply NoDup_map_snoc; [exact H1 | by apply not_in_map_Z].
  - apply NoDup_map_snoc; [exact H2 | by apply not_in_map_string].
  - eapply Forall_impl; [exact H7|]. intros e [? ?].
    split; [assumption | by apply refers_to_program_snoc].
  - eapply Forall_impl; [exact H9|]. intros w [? ?].
    split; [assumption | by apply refers_to_program_snoc].
  - eapply Forall_impl; [exact H11|]. intros n [? Hn].
    split; [assumption|]. destruct (n_programId n); [|exact I].
    by apply refers_to_program_snoc.
Qed.

Lemma insert_client_integrity (v : InsertClient) (clientId : string) (db : Db) :
  integrity db -> integrity (snd (insert_client v clientId db)).
Proof.
  unfold integrity, insert_client. intros H.
  case_if Hid; simpl; [exact H|].
  case_if Hcid; simpl; [exact H|].
  destruct H as (H1 & H2 & H3 & H4 & H5 & H6 & H7 & H8 & H9 & H10 & H11).
  repeat split; try assumption.
  - apply NoDup_map_snoc; [exact H3 | by apply not_in_map_Z].
  - apply NoDup_map_snoc; [exact H4 | by apply not_in_map_string].
  - eapply Forall_impl; [exact H7|]. intros e [? ?].
    split; [by apply refers_to_client_snoc | assumption].
  - eapply Forall_impl; [exact H9|]. intros w [? ?].
    split; [by apply refers_to_client_snoc | assumption].
  - eapply Forall_impl; [exact H11|]. intros n [? Hn].
    split; [by apply refers_to_client_snoc | assumption].
Qed.

Lemma insert_enrollment_integrity (v : InsertEnrollment) (db : Db) :
  integrity db -> integrity (snd (insert_enrollment v db)).
Proof.
  unfold integrity, insert_enrollment. intros H.
  destruct (ie_enrollDate v) as [[ms|]|]; simpl; try exact H;
    (case_if Hid; simpl; [exact H|]);
    (case_if Hpair; simpl; [exact H|]);
    (case_if Hc; simpl; [exact H|]);
    (case_if Hp; simpl; [exact H|]);
    apply negb_false_iff in Hc, Hp;
    destruct H as (H1 & H2 & H3 & H4 & H5 & H6 & H7 & H8 & H9 & H10 & H11);
    repeat split; try assumption;
    try (apply NoDup_map_snoc; [assumption|]);
    try (by apply not_in_map_Z); try (by apply not_in_pairs);
    (apply Forall_app; split; [assumption|]);
    apply Forall_singleton; split; assumption.
Qed.

Lemma deleteEnrollment_integrity (clientId programId : Z) (db : Db) :
  integrity db -> integrity (snd (Storage.deleteEnrollment clientId programId db)).
Proof.
  unfold integrity, Storage.deleteEnrollment. simpl.
  intros (H1 & H2 & H3 & H4 & H5 & H6 & H7 & H8 & H9 & H10 & H11).
  repeat split; try assumption.
  - by apply NoDup_map_filter.
  - by apply NoDup_map_filter.
  - by apply Forall_filter_keep.
Qed.

Lemma insert_visit_integrity (nextval : Z) (v : InsertVisit) (db : Db) :
  integrity db -> integrity (snd (insert_visit nextval v db)).
Proof.
  unfold integrity, insert_visit. intros H.
  destruct (iv_date v) as [[ms|]|]; simpl; try exact H;
    (case_if Hid; simpl; [exact H|]);
    (case_if Hc; simpl; [exact H|]);
    (case_if Hp; simpl; [exact H|]);
    apply negb_false_iff in Hc, Hp;
    destruct H as (H1 & H2 & H3 & H4 & H5 & H6 & H7 & H8 & H9 & H10 & H11);
    repeat split; try assumption;
    try (apply NoDup_map_snoc; [assumption | by apply not_in_map_Z]);
    (apply Forall_app; split; [assumption|]);
    apply Forall_singleton; split; assumption.
Qed.

Lemma insert_note_integrity (nextval : Z) (v : InsertNote) (db : Db) :
  integrity db -> integrity (snd (insert_note nextval v db)).
Proof.
  unfold integrity, insert_note. intros H.
  case_if Hid; simpl; [exact H|].
  case_if Hc; simpl; [exact H|]. apply negb_false_iff in Hc.
  destruct (in_programId v) as [pid|] eqn:Hpid;
    [case_if Hp; simpl; [exact H|]; apply negb_false_iff in Hp|simpl];
    destruct H as (H1 & H2 & H3 & H4 & H5 & H6 & H7 & H8 & H9 & H10 & H11);
    repeat split; try assumption;
    try (apply NoDup_map_snoc; [assumption | by apply not_in_map_Z]);
    (apply Forall_app; split; [assumption|]);
    apply Forall_singleton; simpl; rewrite ?Hpid; split; try assumption; exact I.
Qed.

(** X2.  The constraints of the schema are an invariant of the store:
    from a database with unique ids, unique program codes, unique client
    ids, at most one enrollment for a client and a program, and every
    enrollment, visit and note referring to stored clients and programs,
    each operation leaves such a database, whether it succeeds or
    throws. *)
Theorem store_keeps_integrity (db : Db) :
  integrity db ->
  (forall program, integrity (snd (Storage.createProgram program db))) /\
  (forall year client, integrity (snd (Storage.createClient year client db))) /\
  (forall enrollment, integrity (snd (Storage.createEnrollment enrollment db))) /\
  (forall clientId programId,
      integrity (snd (Storage.deleteEnrollment clientId programId db))) /\
  (forall nextval visit, integrity (snd (Storage.createVisit nextval visit db))) /\
  (forall nextval note, integrity (snd (Storage.createNote nextval note db))).
Proof.
  intros H. split; [|split; [|split; [|split; [|split]]]].
  - intros program. by apply insert_program_integrity.
  - intros year client. unfold Storage.createClient, bind.
    destruct (Js.truthy (ic_clientId client)); simpl;
      by apply insert_client_integrity.
  - intros enrollment. by apply insert_enrollment_integrity.
  - intros clientId programId. by apply deleteEnrollment_integrity.
  - intros nextval visit. by apply insert_visit_integrity.
  - intros nextval note. by apply insert_note_integrity.
Qed.

Lemma sample_db_integrity : integrity sample_db.
Proof.
  unfold integrity, tables_ok. simpl.
  repeat split; repeat constructor; simpl; try tauto;
    try (intros H; apply list_elem_of_In in H; simpl in H; tauto).
Defined.

Lemma store_keeps_integrity_witness :
  integrity (snd (Storage.deleteEnrollment 1 1 sample_db)).
Proof.
  destruct (store_keeps_integrity sample_db sample_db_integrity)
    as (_ & _ & _ & Hd & _).
  apply (Hd 1 1).
Defined.

(* ===================================================================== *)
(** ** Inserting and looking up *)
(* ===================================================================== *)

Lemma filter_snoc_only {A} (g : A -> bool) (l : list A) (x : A) :
  existsb g l = false -> g x = true -> List.filter g (l ++ [x]) = [x].
Proof.
  intros Hl Hx. rewrite List.filter_app, (filter_none _ _ Hl). simpl.
  by rewrite Hx.
Qed.

Lemma filter_negb_all {A} (g : A -> bool) (l : list A) :
  existsb g l = false -> List.filter (fun a => negb (g a)) l = l.
Proof.
  induction l as [|a l IH]; simpl; [reflexivity|].
  destruct (g a); simpl; [discriminate|]. intros H. by rewrite IH.
Qed.

(** Case analysis on the condition of a conditional in a hypothesis. *)
Ltac case_if_in H E :=
  match type of H with
  | context [if ?b then _ else _] => destruct b eqn:E
  end.

Lemma insert_program_returns (v : InsertProgram) (db db' : Db) (row : Program) :
  insert_program v db = (inr row, db') ->
  row = mkProgram (programs_seq db) (ip_name v) (ip_code v) (ip_description v)
                  (ip_requiredInfo v) /\
  has_program db (p_id row) = false /\
  has_code db (ip_code v) = false /\
  db' = set_programs (programs db ++ [row]) (programs_seq db + 1) db.
Proof.
  unfold insert_program, has_program, has_code. intros H.
  case_if_in H Hid; [discriminate H|]. case_if_in H Hcode; [discriminate H|].
  injection H as <- <-. repeat split; assumption.
Qed.

(** X3.  A program that [createProgram] returns can be read back: in the
    database it leaves, [getProgramByCode] with the code given and
    [getProgramById] with the id returned both answer that very row, the
    code of which is the code given. *)
Theorem createProgram_then_lookup
    (program : InsertProgram) (db db' : Db) (row : Program) :
  Storage.createProgram program db = (inr row, db') ->
  p_code row = ip_code program /\
  Storage.getProgramByCode (ip_code program) db' = (inr (Some row), db') /\
  Storage.getProgramById (p_id row) db' = (inr (Some row), db').
Proof.
  intros H. apply insert_program_returns in H.
  destruct H as (Hrow & Hid & Hcode & ->).
  split; [by rewrite Hrow|]. split.
  - rewrite getProgramByCode_run. simpl.
    rewrite filter_snoc_only; [reflexivity|exact Hcode|].
    rewrite Hrow. apply String.eqb_refl.
  - rewrite getProgramById_run. simpl.
    rewrite filter_snoc_only; [reflexivity|exact Hid|apply Z.eqb_refl].
Qed.

Lemma createProgram_then_lookup_witness :
  p_code lowercase_tb = "tb" /\
  Storage.getProgramByCode "tb" (set_programs [tb; lowercase_tb] 3 sample_db) =
    (inr (Some lowercase_tb), set_programs [tb; lowercase_tb] 3 sample_db) /\
  Storage.getProgramById 2 (set_programs [tb; lowercase_tb] 3 sample_db) =
    (inr (Some lowercase_tb), set_programs [tb; lowercase_tb] 3 sample_db).
Proof.
  apply (createProgram_then_lookup
           (mkInsertProgram "Tuberculosis again" "tb" "A second TB program" None)
           sample_db (set_programs [tb; lowercase_tb] 3 sample_db) lowercase_tb).
  vm_compute. reflexivity.
Defined.

(** X4.  [createProgram] does not look for the code itself: with the
    sequence ahead of the stored ids, a code that is already stored makes
    it throw the driver's unique-violation error; the rows are the ones
    from before, and the id drawn for the rejected row is spent. *)
Theorem createProgram_duplicate_code (program : InsertProgram) (db : Db) :
  sequences_ahead db ->
  has_code db (ip_code program) = true ->
  Storage.createProgram program db =
    (inl (UniqueViolation "programs_code_unique"),
     set_programs (programs db) (programs_seq db + 1) db).
Proof.
  intros (Hp & _) Hcode. unfold Storage.createProgram, insert_program. simpl.
  rewrite (ahead_fresh _ _ _ Hp). unfold has_code in Hcode. by rewrite Hcode.
Qed.

Lemma createProgram_duplicate_code_witness :
  Storage.createProgram (mkInsertProgram "TB again" "TB" "The same code" None)
                        sample_db =
    (inl (UniqueViolation "programs_code_unique"),
     set_programs [tb] 3 sample_db).
Proof.
  apply (createProgram_duplicate_code
           (mkInsertProgram "TB again" "TB" "The same code" None) sample_db
           sample_db_ahead).
  vm_compute. reflexivity.
Defined.

Lemma insert_client_returns
    (v : InsertClient) (clientId : string) (db db' : Db) (row : Client) :
  insert_client v clientId db = (inr row, db') ->
  c_id row = clients_seq db /\
  c_clientId row = clientId /\
  c_status row = default "active" (ic_status v) /\
  has_client db (c_id row) = false /\
  has_clientId db clientId = false /\
  db' = set_clients (clients db ++ [row]) (clients_seq db + 1) db.
Proof.
  unfold insert_client, has_client, has_clientId. intros H.
  case_if_in H Hid; [discriminate H|]. case_if_in H Hcid; [discriminate H|].
  injection H as <- <-. repeat split; assumption.
Qed.

Lemma createClient_runs_insert (year : Z) (client : InsertClient) (db : Db) :
  exists clientId,
    Storage.createClient year client db = insert_client client clientId db /\
    (Js.truthy (ic_clientId client) = true -> ic_clientId client = Some clientId) /\
    (Js.truthy (ic_clientId client) = false ->
     clientId = Utils.generateClientId year (next_sequence_number db)).
Proof.
  unfold Storage.createClient, bind.
  destruct (Js.truthy (ic_clientId client)) eqn:Ht.
  - destruct (ic_clientId client) as [s|]; [|discriminate Ht].
    exists s. split; [reflexivity|]. split; [reflexivity|discriminate].
  - rewrite nextClientId_run. eexists. split; [reflexivity|].
    split; [discriminate|reflexivity].
Qed.

(** X5.  A client that [createClient] returns can be read back: in the
    database it leaves, [getClientById] with the id returned and
    [getClientByClientId] with the client id of the record both answer
    that very row; its status is the one given, ["active"] when none
    was. *)
Theorem createClient_then_lookup
    (year : Z) (client : InsertClient) (db db' : Db) (row : Client) :
  Storage.createClient year client db = (inr row, db') ->
  Storage.getClientById (c_id row) db' = (inr (Some row), db') /\
  Storage.getClientByClientId (c_clientId row) db' = (inr (Some row), db') /\
  c_status row = default "active" (ic_status client).
Proof.
  intros H. destruct (createClient_runs_insert year client db) as (cid & Hrun & _).
  rewrite Hrun in H. apply insert_client_returns in H.
  destruct H as (Hid & Hcid & Hstatus & Hfresh & Hfree & ->).
  split; [|split; [|exact Hstatus]].
  - rewrite getClientById_run. simpl.
    rewrite filter_snoc_only; [reflexivity|exact Hfresh|apply Z.eqb_refl].
  - unfold Storage.getClientByClientId, bind, select, ret. simpl.
    rewrite filter_snoc_only; [reflexivity| |apply String.eqb_refl].
    rewrite Hcid. exact Hfree.
Qed.

Lemma createClient_then_lookup_witness :
  Storage.getClientById 2 (set_clients [john; peter_row] 3 sample_db) =
    (inr (Some peter_row), set_clients [john; peter_row] 3 sample_db) /\
  Storage.getClientByClientId "HIS-2025-003"
      (set_clients [john; peter_row] 3 sample_db) =
    (inr (Some peter_row), set_clients [john; peter_row] 3 sample_db) /\
  c_status peter_row = "active".
Proof.
  apply (createClient_then_lookup 2025 peter sample_db
           (set_clients [john; peter_row] 3 sample_db) peter_row).
  vm_compute. reflexivity.
Defined.



(* ===================================================================== *)
(** ** Enrolling and unenrolling; a generated id that is taken *)
(* ===================================================================== *)

Lemma insert_enrollment_fresh_pair
    (v : InsertEnrollment) (db db' : Db) (e : Enrollment) :
  insert_enrollment v db = (inr e, db') ->
  has_enrollment db (ie_clientId v) (ie_programId v) = false /\
  e_clientId e = ie_clientId v /\ e_programId e = ie_programId v.
Proof.
  unfold insert_enrollment, has_enrollment. intros H.
  destruct (ie_enrollDate v) as [[ms|]|]; try discriminate H;
    (case_if_in H Hid; [discriminate H|]);
    (case_if_in H Hpair; [discriminate H|]);
    (case_if_in H Hc; [discriminate H|]);
    (case_if_in H Hp; [discriminate H|]);
    injection H as <- <-; repeat split; assumption.
Qed.

(** X7.  Unenrolling undoes enrolling: after a [createEnrollment] that
    returned a row, [deleteEnrollment] for the client and program of the
    request answers [true] and leaves the table of enrollments with
    exactly the rows it had before the enrollment. *)
Theorem createEnrollment_then_deleteEnrollment
    (enrollment : InsertEnrollment) (db db' : Db) (e : Enrollment) :
  Storage.createEnrollment enrollment db = (inr e, db') ->
  fst (Storage.deleteEnrollment (ie_clientId enrollment)
                                (ie_programId enrollment) db') = inr true /\
  enrollments (snd (Storage.deleteEnrollment (ie_clientId enrollment)
                                             (ie_programId enrollment) db'))
    = enrollments db.
Proof.
  intros H. unfold Storage.createEnrollment in H.
  destruct (insert_enrollment_fresh_pair _ _ _ _ H) as (Hnew & Hc & Hp).
  destruct (insert_enrollment_returns _ _ _ _ H) as (Hrows & _).
  unfold has_enrollment in Hnew.
  assert (Hhit : same_pair (ie_clientId enrollment) (ie_programId enrollment) e
                 = true).
  { unfold same_pair. by rewrite Hc, Hp, !Z.eqb_refl. }
  unfold Storage.deleteEnrollment. simpl. rewrite Hrows. split.
  - rewrite length_map, existsb_filter_nonempty, existsb_app. simpl.
    by rewrite Hhit, orb_true_r.
  - rewrite List.filter_app, (filter_negb_all _ _ Hnew). simpl.
    rewrite Hhit. simpl. apply app_nil_r.
Qed.

Lemma createEnrollment_then_deleteEnrollment_witness :
  fst (Storage.deleteEnrollment 1 1 (set_enrollments [john_in_tb_default] 2 open_db))
    = inr true /\
  enrollments (snd (Storage.deleteEnrollment 1 1
                      (set_enrollments [john_in_tb_default] 2 open_db))) = [].
Proof.
  apply (createEnrollment_then_deleteEnrollment
           (mkInsertEnrollment 1 1 (Some (Js.ValidDate 1735689600000))
                               None None None None None)
           open_db (set_enrollments [john_in_tb_default] 2 open_db)
           john_in_tb_default).
  vm_compute. reflexivity.
Defined.

(** X8.  A generated client id that is taken stays taken.  With the
    sequences ahead, a [createClient] without a client id fails only for
    the generated id being in use; it stores nothing, so the largest id
    and with it the next generated id are the same afterwards, and every
    further [createClient] without a client id in that year fails in the
    same way, the sequences still ahead. *)
Theorem generated_id_collision_persists
    (year : Z) (client later : InsertClient) (db db' : Db) (err : Exn) :
  sequences_ahead db ->
  Js.truthy (ic_clientId client) = false ->
  Js.truthy (ic_clientId later) = false ->
  Storage.createClient year client db = (inl err, db') ->
  err = UniqueViolation "clients_client_id_unique" /\
  clients db' = clients db /\
  sequences_ahead db' /\
  exists db'',
    Storage.createClient year later db' = (inl err, db'') /\
    clients db'' = clients db.
Proof.
  intros Hahead Hc Hl Hfail.
  destruct (createClient_runs_insert year client db) as (cid & Hrun & _ & Hgen).
  specialize (Hgen Hc). rewrite Hrun in Hfail.
  destruct (insert_client_ahead client cid db Hahead) as [Hahead' _].
  rewrite Hfail in Hahead'. simpl in Hahead'.
  destruct Hahead as (_ & Hcs & _).
  unfold insert_client in Hfail. simpl in Hfail.
  rewrite (ahead_fresh _ _ _ Hcs) in Hfail.
  case_if_in Hfail Htaken; [|discriminate Hfail].
  injection Hfail as <- <-.
  split; [reflexivity|]. split; [reflexivity|]. split; [exact Hahead'|].
  destruct (createClient_runs_insert year later
              (set_clients (clients db) (clients_seq db + 1) db))
    as (cid' & Hrun' & _ & Hgen').
  specialize (Hgen' Hl).
  assert (cid' = cid) as ->.
  { rewrite Hgen', Hgen. reflexivity. }
  rewrite Hrun'. unfold insert_client. simpl.
  destruct Hahead' as (_ & Hcs' & _). simpl in Hcs'.
  rewrite (ahead_fresh _ _ _ Hcs'), Htaken.
  eexists. split; reflexivity.
Qed.

Lemma crowded_db_ahead : sequences_ahead crowded_db.
Proof.
  repeat split; simpl; repeat constructor; simpl; lia.
Defined.

Lemma generated_id_collision_persists_witness :
  exists db'',
    Storage.createClient 2025 mary
        (set_clients [john; peter_row] 4 crowded_db) =
      (inl (UniqueViolation "clients_client_id_unique"), db'') /\
    clients db'' = clients crowded_db.
Proof.
  destruct (generated_id_collision_persists 2025 mary mary crowded_db
              (set_clients [john; peter_row] 4 crowded_db)
              (UniqueViolation "clients_client_id_unique")
              crowded_db_ahead eq_refl eq_refl eq_refl)
    as (_ & _ & _ & H).
  exact H.
Defined.

(* ===================================================================== *)
(** ** Joins *)
(* ===================================================================== *)

Lemma filter_at_most_one {B} (g : B -> Z) (on : B -> bool) (r : list B) :
  (forall b b', on b = true -> on b' = true -> g b = g b') ->
  NoDup (map g r) ->
  (length (List.filter on r) <= 1)%nat.
Proof.
  intros Hkey. induction r as [|b r IH]; simpl; [lia|].
  intros H. apply NoDup_cons in H. destruct H as [Hb Hr].
  destruct (on b) eqn:Eb; [|by apply IH]. simpl.
  assert (Hnone : existsb on r = false).
  { apply not_true_is_false. intros Hex. apply existsb_exists in Hex.
    destruct Hex as (b' & Hin & Eb'). apply Hb.
    rewrite (Hkey b b' Eb Eb'). apply list_elem_of_In, in_map, Hin. }
  rewrite (filter_none _ _ Hnone). simpl. lia.
Qed.

Lemma filter_exactly_one {B} (g : B -> Z) (on : B -> bool) (r : list B) :
  (forall b b', on b = true -> on b' = true -> g b = g b') ->
  NoDup (map g r) ->
  existsb on r = true ->
  length (List.filter on r) = 1%nat.
Proof.
  intros Hkey Hnd Hex.
  pose proof (filter_at_most_one g on r Hkey Hnd) as Hle.
  destruct (filter_some _ _ Hex) as (b & l & Heq). rewrite Heq in *.
  simpl in *. destruct l; simpl in *; [reflexivity|lia].
Qed.

Lemma map_fst_inner_join {A B} (on : A -> B -> bool) (l : list A) (r : list B) :
  (forall a, In a l -> length (List.filter (on a) r) = 1%nat) ->
  map fst (inner_join on l r) = l.
Proof.
  unfold inner_join. induction l as [|a l IH]; simpl; [reflexivity|].
  intros H. rewrite map_app, IH by (intros; apply H; by right).
  specialize (H a (or_introl eq_refl)).
  destruct (List.filter (on a) r) as [|b [|]]; try discriminate H. reflexivity.
Qed.

Lemma map_fst_left_join {A B} (on : A -> B -> bool) (l : list A) (r : list B) :
  (forall a, In a l -> (length (List.filter (on a) r) <= 1)%nat) ->
  map fst (left_join on l r) = l.
Proof.
  unfold left_join.
  set (f := fun a => match List.filter (on a) r with
                     | [] => [(a, None)]
                     | matches => map (fun b => (a, Some b)) matches
                     end).
  induction l as [|a l IH]; simpl; [reflexivity|].
  intros H. rewrite map_app, IH by (intros; apply H; by right).
  specialize (H a (or_introl eq_refl)). subst f. simpl.
  destruct (List.filter (on a) r) as [|b [|]]; simpl in *; [reflexivity..|lia].
Qed.

Lemma in_inner_join {A B} (on : A -> B -> bool) (l : list A) (r : list B)
    (a : A) (b : B) :
  In (a, b) (inner_join on l r) -> In a l /\ In b r /\ on a b = true.
Proof.
  unfold inner_join. rewrite in_flat_map. intros (a' & Ha & Hin).
  apply in_map_iff in Hin. destruct Hin as (b' & [= -> ->] & Hb).
  apply filter_In in Hb. tauto.
Qed.

Lemma in_left_join {A B} (on : A -> B -> bool) (l : list A) (r : list B)
    (a : A) (o : option B) :
  In (a, o) (left_join on l r) ->
  In a l /\
  match o with
  | Some b => In b r /\ on a b = true
  | None => existsb (on a) r = false
  end.
Proof.
  unfold left_join. rewrite in_flat_map. intros (a' & Ha & Hin).
  destruct (List.filter (on a') r) as [|b0 m] eqn:Hf.
  - destruct Hin as [[= -> <-]|[]]. split; [exact Ha|].
    apply not_true_is_false. intros Hex.
    destruct (filter_some _ _ Hex) as (? & ? & Heq). congruence.
  - apply in_map_iff in Hin. destruct Hin as (b & [= -> <-] & Hb).
    split; [exact Ha|]. rewrite <- Hf in Hb. apply filter_In in Hb. tauto.
Qed.

Lemma map_fst_filter {A B} (c : A -> bool) (l : list (A * B)) :
  map fst (List.filter (fun r => c (fst r)) l) = List.filter c (map fst l).
Proof.
  induction l as [|[a b] l IH]; simpl; [reflexivity|].
  destruct (c a); simpl; by rewrite IH.
Qed.

Lemma existsb_sym_Z {B} (g : B -> Z) (k : Z) (r : list B) :
  existsb (fun b => k =? g b) r = existsb (fun b => g b =? k) r.
Proof.
  induction r as [|b r IH]; simpl; [reflexivity|]. by rewrite IH, Z.eqb_sym.
Qed.

Lemma one_program_each (db : Db) :
  integrity db ->
  forall e, In e (enrollments db) ->
    length (List.filter (fun p => e_programId e =? p_id p) (programs db)) = 1%nat.
Proof.
  intros (H1 & _ & _ & _ & _ & _ & H7 & _) e He.
  apply (filter_exactly_one p_id); [|exact H1|].
  - intros b b' Hb Hb'. apply Z.eqb_eq in Hb, Hb'. congruence.
  - rewrite existsb_sym_Z. rewrite Forall_forall in H7.
    apply (H7 e). by apply list_elem_of_In.
Qed.

Lemma one_client_each (db : Db) :
  integrity db ->
  forall e, In e (enrollments db) ->
    length (List.filter (fun c => e_clientId e =? c_id c) (clients db)) = 1%nat.
Proof.
  intros (_ & _ & H3 & _ & _ & _ & H7 & _) e He.
  apply (filter_exactly_one c_id); [|exact H3|].
  - intros b b' Hb Hb'. apply Z.eqb_eq in Hb, Hb'. congruence.
  - rewrite existsb_sym_Z. rewrite Forall_forall in H7.
    apply (H7 e). by apply list_elem_of_In.
Qed.

(** X9.  In a database that satisfies the constraints of the schema,
    [getEnrollmentsByClientId] answers one entry for each enrollment of
    the client, in table order, and [getEnrollmentsByProgramId] one for
    each enrollment of the program; the program (the client) embedded in
    an entry is a stored row whose id is the one the enrollment refers
    to. *)
Theorem enrollments_joined (id : Z) (db : Db) :
  integrity db ->
  (exists rows,
      Storage.getEnrollmentsByClientId id db = (inr rows, db) /\
      map fst rows = List.filter (fun e => e_clientId e =? id) (enrollments db) /\
      Forall (fun r => In (snd r) (programs db) /\
                       p_id (snd r) = e_programId (fst r)) rows) /\
  (exists rows,
      Storage.getEnrollmentsByProgramId id db = (inr rows, db) /\
      map fst rows = List.filter (fun e => e_programId e =? id) (enrollments db) /\
      Forall (fun r => In (snd r) (clients db) /\
                       c_id (snd r) = e_clientId (fst r)) rows).
Proof.
  intros Hok. split; eexists; (split; [reflexivity|]); split.
  - rewrite (map_fst_filter (fun e => e_clientId e =? id)).
    by rewrite map_fst_inner_join by (by apply one_program_each).
  - apply Forall_forall. intros [e p] Hin.
    apply list_elem_of_In, filter_In in Hin. destruct Hin as [Hin _].
    apply in_inner_join in Hin. destruct Hin as (_ & Hp & Hon).
    apply Z.eqb_eq in Hon. simpl. split; [exact Hp | congruence].
  - rewrite (map_fst_filter (fun e => e_programId e =? id)).
    by rewrite map_fst_inner_join by (by apply one_client_each).
  - apply Forall_forall. intros [e c] Hin.
    apply list_elem_of_In, filter_In in Hin. destruct Hin as [Hin _].
    apply in_inner_join in Hin. destruct Hin as (_ & Hc & Hon).
    apply Z.eqb_eq in Hon. simpl. split; [exact Hc | congruence].
Qed.

Lemma enrollments_joined_witness :
  (exists rows,
      Storage.getEnrollmentsByClientId 1 sample_db = (inr rows, sample_db) /\
      map fst rows = List.filter (fun e => e_clientId e =? 1) (enrollments sample_db) /\
      Forall (fun r => In (snd r) (programs sample_db) /\
                       p_id (snd r) = e_programId (fst r)) rows) /\
  (exists rows,
      Storage.getEnrollmentsByProgramId 1 sample_db = (inr rows, sample_db) /\
      map fst rows = List.filter (fun e => e_programId e =? 1) (enrollments sample_db) /\
      Forall (fun r => In (snd r) (clients sample_db) /\
                       c_id (snd r) = e_clientId (fst r)) rows).
Proof. apply (enrollments_joined 1 sample_db sample_db_integrity). Defined.

(* ===================================================================== *)
(** ** Client details *)
(* ===================================================================== *)

Lemma note_program_key (n : Note) (b b' : Program) :
  Storage.note_program n b = true -> Storage.note_program n b' = true ->
  p_id b = p_id b'.
Proof.
  unfold Storage.note_program. destruct (n_programId n); [|discriminate].
  intros Hb Hb'. apply Z.eqb_eq in Hb, Hb'. congruence.
Qed.

(** X10.  In a database that satisfies the constraints of the schema,
    and for an id in the range of the integer columns,
    [getClientDetails] answers [undefined] exactly when no client has the
    id; otherwise it answers that client with one entry for each of the
    client's enrollments, one for each of the client's visits and one for
    each of the client's notes, all in table order.  A note entry has a
    program exactly when the note has a program id, and the program is
    then the stored one with that id: notes without a program are kept,
    with [program] unset.  The database is untouched. *)
Theorem getClientDetails_complete (id : Z) (db : Db) :
  integrity db ->
  int4 id = true ->
  match first (List.filter (fun c => c_id c =? id) (clients db)) with
  | None => Storage.getClientDetails id db = (inr None, db)
  | Some client =>
      exists d,
        Storage.getClientDetails id db = (inr (Some d), db) /\
        cd_client d = client /\
        map fst (cd_enrollments d) =
          List.filter (fun e => e_clientId e =? id) (enrollments db) /\
        map fst (cd_visits d) =
          List.filter (fun v => v_clientId v =? id) (visits db) /\
        map fst (cd_notes d) =
          List.filter (fun n => n_clientId n =? id) (notes db) /\
        Forall (fun r => match n_programId (fst r), snd r with
                         | Some pid, Some p => In p (programs db) /\ p_id p = pid
                         | None, None => True
                         | _, _ => False
                         end) (cd_notes d)
  end.
Proof.
  intros Hok _.
  destruct (first (List.filter (fun c => c_id c =? id) (clients db)))
    as [client|] eqn:Hfirst.
  2: { unfold Storage.getClientDetails, bind.
       rewrite getClientById_run, Hfirst. reflexivity. }
  eexists. split.
  { unfold Storage.getClientDetails. unfold bind at 1.
    rewrite getClientById_run, Hfirst. reflexivity. }
  simpl. split; [reflexivity|].
  pose proof Hok as (H1 & H2 & H3 & H4 & H5 & H6 & H7 & H8 & H9 & H10 & H11).
  split; [|split; [|split]].
  - rewrite (map_fst_filter (fun e => e_clientId e =? id)).
    rewrite map_fst_inner_join; [reflexivity|].
    apply one_program_each. exact Hok.
  - rewrite (map_fst_filter (fun v => v_clientId v =? id)).
    rewrite map_fst_inner_join; [reflexivity|]. intros v Hv.
    apply (filter_exactly_one p_id); [|exact H1|].
    + intros b b' Hb Hb'. apply Z.eqb_eq in Hb, Hb'. congruence.
    + rewrite existsb_sym_Z. rewrite Forall_forall in H9.
      apply (H9 v). by apply list_elem_of_In.
  - rewrite (map_fst_filter (fun n => n_clientId n =? id)).
    rewrite map_fst_left_join; [reflexivity|]. intros n Hn.
    apply (filter_at_most_one p_id); [apply note_program_key | exact H1].
  - apply Forall_forall. intros [n o] Hin.
    apply list_elem_of_In, filter_In in Hin. destruct Hin as [Hin _].
    apply in_left_join in Hin. destruct Hin as (Hn & Ho). simpl.
    destruct o as [p|].
    + destruct Ho as [Hp Hon]. unfold Storage.note_program in Hon.
      destruct (n_programId n) as [pid|]; [|discriminate Hon].
      apply Z.eqb_eq in Hon. split; [exact Hp | congruence].
    + destruct (n_programId n) as [pid|] eqn:Hpid; [|exact I].
      rewrite Forall_forall in H11.
      destruct (H11 n (proj2 (list_elem_of_In _ _) Hn)) as [_ Href].
      rewrite Hpid in Href. unfold refers_to_program in Href.
      rewrite <- existsb_sym_Z in Href.
      unfold Storage.note_program in Ho. rewrite Hpid in Ho. congruence.
Qed.

Lemma clinic_db_integrity : integrity clinic_db.
Proof.
  unfold integrity, tables_ok. simpl.
  repeat split; repeat constructor; simpl; try tauto;
    try (intros H; apply list_elem_of_In in H; simpl in H;
         intuition discriminate).
Defined.

Lemma getClientDetails_complete_witness :
  exists d,
    Storage.getClientDetails 1 clinic_db = (inr (Some d), clinic_db) /\
    cd_client d = john /\
    map fst (cd_enrollments d) = [john_in_tb] /\
    map fst (cd_visits d) = [john_visit] /\
    map fst (cd_notes d) = [john_note_tb; john_note_general] /\
    Forall (fun r => match n_programId (fst r), snd r with
                     | Some pid, Some p => In p (programs clinic_db) /\ p_id p = pid
                     | None, None => True
                     | _, _ => False
                     end) (cd_notes d).
Proof.
  apply (getClientDetails_complete 1 clinic_db clinic_db_integrity eq_refl).
Defined.

Example getClientDetails_note_without_program :
  exists d,
    Storage.getClientDetails 1 clinic_db = (inr (Some d), clinic_db) /\
    cd_notes d = [(john_note_tb, Some tb); (john_note_general, None)].
Proof. eexists. split; vm_compute; reflexivity. Qed.

(* ===================================================================== *)
(** ** The routes of a client that is not stored *)
(* ===================================================================== *)

Lemma no_rows_of_missing_client {A} (key : A -> Z) (cs : list Client)
    (rows : list A) (id : Z) :
  Forall (fun a => refers_to_client cs (key a) = true) rows ->
  refers_to_client cs id = false ->
  List.filter (fun a => key a =? id) rows = [].
Proof.
  intros Hfk Hid. apply filter_none. apply not_true_is_false. intros Hex.
  apply existsb_exists in Hex. destruct Hex as (a & Ha & Hkey).
  apply Z.eqb_eq in Hkey. rewrite Forall_forall in Hfk.
  specialize (Hfk a (proj2 (list_elem_of_In _ _) Ha)). congruence.
Qed.

(** X12.  For an id that parses, is in the range of the integer columns
    and belongs to no client, in a database that satisfies the
    constraints of the schema, the routes disagree:
    the client, its details and its enrollments are answered 404
    "Client not found", while its visits and its notes are answered 200
    with the empty list.  None of them changes the database. *)
Theorem routes_of_missing_client
    (parseInt : string -> option Z) (param : string) (id : Z) (db : Db) :
  integrity db ->
  parseInt param = Some id ->
  int4 id = true ->
  has_client db id = false ->
  Routes.GET_client parseInt param db =
    (inr (mkReply 404 (SentMessage "Client not found")), db) /\
  Routes.GET_client_details parseInt param db =
    (inr (mkReply 404 (SentMessage "Client not found")), db) /\
  Routes.GET_client_enrollments parseInt param db =
    (inr (mkReply 404 (SentMessage "Client not found")), db) /\
  Routes.GET_client_visits parseInt param db = (inr (mkReply 200 (Sent [])), db) /\
  Routes.GET_client_notes parseInt param db = (inr (mkReply 200 (Sent [])), db).
Proof.
  intros (_ & _ & _ & _ & _ & _ & _ & _ & H9 & _ & H11) Hparse _ Hmissing.
  pose proof (getClientById_missing _ _ Hmissing) as Hget.
  repeat split.
  - unfold Routes.GET_client, try_catch, bind. by rewrite Hparse, Hget.
  - unfold Routes.GET_client_details, try_catch, Storage.getClientDetails, bind.
    by rewrite Hparse, Hget.
  - unfold Routes.GET_client_enrollments, try_catch, bind. by rewrite Hparse, Hget.
  - unfold Routes.GET_client_visits, try_catch, bind, Storage.getVisitsByClientId,
      select. rewrite Hparse.
    rewrite (no_rows_of_missing_client v_clientId (clients db)); [reflexivity| |exact Hmissing].
    eapply Forall_impl; [exact H9|]. by intros v [? _].
  - unfold Routes.GET_client_notes, try_catch, bind, Storage.getNotesByClientId,
      select. rewrite Hparse.
    rewrite (no_rows_of_missing_client n_clientId (clients db)); [reflexivity| |exact Hmissing].
    eapply Forall_impl; [exact H11|]. by intros n [? _].
Qed.

Lemma routes_of_missing_client_witness :
  Routes.GET_client sample_parseInt "7" clinic_db =
    (inr (mkReply 404 (SentMessage "Client not found")), clinic_db) /\
  Routes.GET_client_details sample_parseInt "7" clinic_db =
    (inr (mkReply 404 (SentMessage "Client not found")), clinic_db) /\
  Routes.GET_client_enrollments sample_parseInt "7" clinic_db =
    (inr (mkReply 404 (SentMessage "Client not found")), clinic_db) /\
  Routes.GET_client_visits sample_parseInt "7" clinic_db =
    (inr (mkReply 200 (Sent [])), clinic_db) /\
  Routes.GET_client_notes sample_parseInt "7" clinic_db =
    (inr (mkReply 200 (Sent [])), clinic_db).
Proof.
  apply (routes_of_missing_client sample_parseInt "7" 7 clinic_db
           clinic_db_integrity eq_refl eq_refl eq_refl).
Defined.

(* ===================================================================== *)
(** ** Registering a client over HTTP *)
(* ===================================================================== *)

Lemma insert_client_throws
    (v : InsertClient) (clientId : string) (db db' : Db) (err : Exn) :
  insert_client v clientId db = (inl err, db') -> clients db' = clients db.
Proof.
  unfold insert_client. intros H.
  case_if_in H Hid; [by injection H as <- <-|].
  case_if_in H Hcid; [by injection H as <- <-|discriminate H].
Qed.

(** X13.  A registration whose client id is already in use is answered
    500 with the generic message, not 409, and no client is stored. *)
Theorem POST_clients_taken_id
    (year : Z) (body : gmap string Json) (data : InsertClient)
    (clientId : string) (db : Db) :
  createClientSchema body = Some data ->
  ic_clientId data = Some clientId ->
  clientId <> "" ->
  has_clientId db clientId = true ->
  exists db',
    Routes.POST_clients year body db =
      (inr (mkReply 500 (SentMessage "Failed to create client")), db') /\
    clients db' = clients db.
Proof.
  intros Hparse Hsome Hne Htaken.
  assert (Ht : Js.truthy (ic_clientId data) = true).
  { rewrite Hsome. simpl. apply negb_true_iff, String.eqb_neq, Hne. }
  assert (Hrun : Storage.createClient year data db
                 = insert_client data clientId db).
  { unfold Storage.createClient, bind. rewrite Ht, Hsome. reflexivity. }
  unfold Routes.POST_clients, try_catch, bind. rewrite Hparse, Hrun.
  destruct (insert_client data clientId db) as [[err|row] db'] eqn:Hins.
  - exists db'. split; [reflexivity|]. by apply insert_client_throws in Hins.
  - apply insert_client_returns in Hins. destruct Hins as (_ & _ & _ & _ & Hfree & _).
    congruence.
Qed.

Lemma POST_clients_taken_id_witness :
  exists db',
    Routes.POST_clients 2025 register_peter crowded_db =
      (inr (mkReply 500 (SentMessage "Failed to create client")), db') /\
    clients db' = clients crowded_db.
Proof.
  apply (POST_clients_taken_id 2025 register_peter peter "HIS-2025-003" crowded_db);
    [vm_compute; reflexivity | reflexivity | discriminate | vm_compute; reflexivity].
Defined.



(* ===================================================================== *)
(** ** Notes and statistics over HTTP *)
(* ===================================================================== *)

Lemma insert_note_throws (nextval : Z) (v : InsertNote) (db db' : Db) (err : Exn) :
  insert_note nextval v db = (inl err, db') -> db' = db.
Proof.
  unfold insert_note. intros H.
  case_if_in H Hid; [by injection H as <- <-|].
  case_if_in H Hc; [by injection H as <- <-|].
  destruct (in_programId v) as [pid|];
    [case_if_in H Hp; [by injection H as <- <-|]|]; discriminate H.
Qed.

Lemma insert_note_returns (nextval : Z) (v : InsertNote) (db db' : Db) (row : Note) :
  insert_note nextval v db = (inr row, db') ->
  row = mkNote nextval (in_clientId v) (in_programId v) (in_content v)
               (in_createdBy v) (db_now db) /\
  has_client db (in_clientId v) = true /\
  db' = set_notes (notes db ++ [row]) db.
Proof.
  unfold insert_note, has_client. intros H.
  case_if_in H Hid; [discriminate H|].
  case_if_in H Hc; [discriminate H|]. apply negb_false_iff in Hc.
  destruct (in_programId v) as [pid|];
    [case_if_in H Hp; [discriminate H|]|];
    injection H as <- <-; repeat split; exact Hc.
Qed.

(** X15.  [POST /api/notes] does not look for the client: a validated
    note for a client id that no client has runs into the foreign key and
    is answered 500 with the generic message, where the enrollment route
    answers 404; the database is unchanged. *)
Theorem POST_notes_missing_client
    (nextval : Z) (body : gmap string Json) (data : InsertNote) (db : Db) :
  insertNoteSchema body = Some data ->
  has_client db (in_clientId data) = false ->
  Routes.POST_notes nextval body db =
    (inr (mkReply 500 (SentMessage "Failed to create note")), db).
Proof.
  intros Hparse Hmissing.
  unfold Routes.POST_notes, try_catch, bind, Storage.createNote. rewrite Hparse.
  destruct (insert_note nextval data db) as [[err|row] db'] eqn:Hins.
  - apply insert_note_throws in Hins. by subst db'.
  - apply insert_note_returns in Hins. destruct Hins as (_ & Hc & _). congruence.
Qed.

Lemma POST_notes_missing_client_witness :
  Routes.POST_notes 3 note_for_nobody clinic_db =
    (inr (mkReply 500 (SentMessage "Failed to create note")), clinic_db).
Proof.
  apply (POST_notes_missing_client 3 note_for_nobody
           (mkInsertNote 7 None "Called twice" "admin") clinic_db);
    vm_compute; reflexivity.
Defined.

(** X16.  A note that [POST /api/notes] answers 201 for is stored as
    sent, a missing [programId] as null, and is the last of the notes
    that [getNotesByClientId] then answers for its client; the notes of
    the client from before are still listed ahead of it. *)
Theorem POST_notes_then_listed
    (nextval : Z) (body : gmap string Json) (db db' : Db) (row : Note) :
  Routes.POST_notes nextval body db = (inr (mkReply 201 (Sent row)), db') ->
  exists data,
    insertNoteSchema body = Some data /\
    n_programId row = in_programId data /\
    n_content row = in_content data /\
    fst (Storage.getNotesByClientId (n_clientId row) db') =
      inr (List.filter (fun n => n_clientId n =? n_clientId row) (notes db) ++ [row]).
Proof.
  unfold Routes.POST_notes, try_catch, bind, Storage.createNote. intros H.
  destruct (insertNoteSchema body) as [data|]; [|discriminate H].
  exists data. split; [reflexivity|].
  destruct (insert_note nextval data db) as [[err|row'] db0] eqn:Hins;
    [discriminate H|].
  injection H as -> ->. apply insert_note_returns in Hins.
  destruct Hins as (Hrow & _ & ->).
  split; [by rewrite Hrow|]. split; [by rewrite Hrow|].
  unfold Storage.getNotesByClientId, select. simpl.
  rewrite List.filter_app. simpl. by rewrite Z.eqb_refl.
Qed.

Lemma POST_notes_then_listed_witness :
  exists data,
    insertNoteSchema note_for_john = Some data /\
    n_programId john_note_general = in_programId data /\
    n_content john_note_general = in_content data /\
    fst (Storage.getNotesByClientId (n_clientId john_note_general) clinic_db) =
      inr (List.filter (fun n => n_clientId n =? n_clientId john_note_general)
                       [john_note_tb] ++ [john_note_general]).
Proof.
  apply (POST_notes_then_listed 2 note_for_john
           (set_notes [john_note_tb] clinic_db) clinic_db john_note_general).
  vm_compute. reflexivity.
Defined.

Lemma insert_enrollment_other_tables
    (v : InsertEnrollment) (db : Db) :
  clients (snd (insert_enrollment v db)) = clients db /\
  programs (snd (insert_enrollment v db)) = programs db.
Proof.
  unfold insert_enrollment.
  destruct (ie_enrollDate v) as [[ms|]|];
    repeat match goal with
           | |- context [if ?b then _ else _] => destruct b
           end; split; reflexivity.
Qed.

Lemma GET_stats_run (db : Db) :
  Routes.GET_stats db =
    (inr (mkReply 200 (Sent (mkStats (length (clients db)) (length (programs db))
                                     (length (enrollments db))))), db).
Proof.
  unfold Routes.GET_stats, try_catch, bind, Storage.getClients,
    Storage.getPrograms, Storage.getEnrollments, select, ret.
  assert (Hall : forall A (l : list A), List.filter (fun _ => true) l = l).
  { intros A l. induction l; simpl; congruence. }
  rewrite !Hall. rewrite (Permutation_length (order_by_id_desc_perm (clients db))).
  reflexivity.
Qed.

(** X17.  [GET /api/stats] reports the sizes of the three tables,
    whatever the status of their rows; an enrollment request answered
    201 raises [newEnrollments] by one and leaves the other two figures
    as they were. *)
Theorem stats_after_enrollment
    (new_Date : string -> Js.Date) (body : gmap string Json) (db db' : Db)
    (e : Enrollment) :
  Routes.POST_enrollments new_Date body db =
    (inr (mkResponse 201 (OneEnrollment e)), db') ->
  exists before after,
    Routes.GET_stats db = (inr (mkReply 200 (Sent before)), db) /\
    Routes.GET_stats db' = (inr (mkReply 200 (Sent after)), db') /\
    before = mkStats (length (clients db)) (length (programs db))
                     (length (enrollments db)) /\
    newEnrollments after = S (newEnrollments before) /\
    totalClients after = totalClients before /\
    activePrograms after = activePrograms before.
Proof.
  intros H. destruct (POST_enrollments_created _ _ _ _ _ H) as (data & _ & Hins).
  destruct (insert_enrollment_returns _ _ _ _ Hins) as (Hrows & _).
  destruct (insert_enrollment_other_tables data db) as (Hcs & Hps).
  rewrite Hins in Hcs, Hps. simpl in Hcs, Hps.
  do 2 eexists. rewrite !GET_stats_run.
  split; [reflexivity|]. split; [reflexivity|]. split; [reflexivity|]. simpl.
  rewrite Hrows, Hcs, Hps, length_app. simpl. repeat split. lia.
Qed.

Lemma stats_after_enrollment_witness :
  exists before after,
    Routes.GET_stats open_db = (inr (mkReply 200 (Sent before)), open_db) /\
    Routes.GET_stats (set_enrollments [john_in_tb_default] 2 open_db) =
      (inr (mkReply 200 (Sent after)),
       set_enrollments [john_in_tb_default] 2 open_db) /\
    before = mkStats (length (clients open_db)) (length (programs open_db))
                     (length (enrollments open_db)) /\
    newEnrollments after = S (newEnrollments before) /\
    totalClients after = totalClients before /\
    activePrograms after = activePrograms before.
Proof.
  apply (stats_after_enrollment sample_new_Date enroll_john_in_tb open_db
           (set_enrollments [john_in_tb_default] 2 open_db) john_in_tb_default).
  vm_compute. reflexivity.
Defined.

(* ===================================================================== *)
(** ** The client side *)
(* ===================================================================== *)

Lemma upper_char_idem (c : ascii) : Js.upper_char (Js.upper_char c) = Js.upper_char c.
Proof. destruct c as [[] [] [] [] [] [] [] []]; vm_compute; reflexivity. Qed.

Lemma upper_lower_char (c : ascii) : Js.upper_char (Js.lower_char c) = Js.upper_char c.
Proof. destruct c as [[] [] [] [] [] [] [] []]; vm_compute; reflexivity. Qed.

Lemma lower_upper_char (c : ascii) : Js.lower_char (Js.upper_char c) = Js.lower_char c.
Proof. destruct c as [[] [] [] [] [] [] [] []]; vm_compute; reflexivity. Qed.

Lemma lower_char_idem (c : ascii) : Js.lower_char (Js.lower_char c) = Js.lower_char c.
Proof. destruct c as [[] [] [] [] [] [] [] []]; vm_compute; reflexivity. Qed.

Lemma map_chars_compose (f g h : ascii -> ascii) (s : string) :
  (forall c, f (g c) = h c) ->
  Js.map_chars f (Js.map_chars g s) = Js.map_chars h s.
Proof.
  intros H. induction s as [|c s IH]; simpl; [reflexivity|]. by rewrite H, IH.
Qed.

Lemma toUpperCase_idem (s : string) :
  Js.toUpperCase (Js.toUpperCase s) = Js.toUpperCase s.
Proof. apply map_chars_compose, upper_char_idem. Qed.

Lemma toUpperCase_toLowerCase (s : string) :
  Js.toUpperCase (Js.toLowerCase s) = Js.toUpperCase s.
Proof. apply map_chars_compose, upper_lower_char. Qed.

Lemma toLowerCase_toUpperCase (s : string) :
  Js.toLowerCase (Js.toUpperCase s) = Js.toLowerCase s.
Proof. apply map_chars_compose, lower_upper_char. Qed.

Lemma toLowerCase_idem (s : string) :
  Js.toLowerCase (Js.toLowerCase s) = Js.toLowerCase s.
Proof. apply map_chars_compose, lower_char_idem. Qed.

Lemma first_letter_upper (s : string) :
  Js.toLowerCase (ProgramCard.charAt0 (Js.toUpperCase s))
  = Js.toLowerCase (ProgramCard.charAt0 s).
Proof.
  destruct s as [|c s]; [reflexivity|].
  unfold Js.toLowerCase. simpl. by rewrite lower_upper_char.
Qed.

Lemma first_letter_lower (s : string) :
  Js.toLowerCase (ProgramCard.charAt0 (Js.toLowerCase s))
  = Js.toLowerCase (ProgramCard.charAt0 s).
Proof.
  destruct s as [|c s]; [reflexivity|].
  unfold Js.toLowerCase. simpl. by rewrite lower_char_idem.
Qed.

(** X18.  For a string of ASCII characters, the colours of a program do
    not depend on the letter case of its code: [formatProgramBadge] and
    the gradient of the program card give the same classes for a code,
    for its upper-case form and for its lower-case form; and the classes
    of a status badge do not depend on the letter case of the status. *)
Theorem presentation_ignores_case (s : string) :
  ascii_only s = true ->
  Utils.formatProgramBadge (Js.toUpperCase s) = Utils.formatProgramBadge s /\
  Utils.formatProgramBadge (Js.toLowerCase s) = Utils.formatProgramBadge s /\
  ProgramCard.gradientClass (Js.toUpperCase s) = ProgramCard.gradientClass s /\
  ProgramCard.gradientClass (Js.toLowerCase s) = ProgramCard.gradientClass s /\
  Utils.className (Utils.formatProgramStatusBadge (Js.toUpperCase s)) =
    Utils.className (Utils.formatProgramStatusBadge s) /\
  Utils.className (Utils.formatProgramStatusBadge (Js.toLowerCase s)) =
    Utils.className (Utils.formatProgramStatusBadge s).
Proof.
  intros _. repeat split.
  - unfold Utils.formatProgramBadge. by rewrite toUpperCase_idem.
  - unfold Utils.formatProgramBadge. by rewrite toUpperCase_toLowerCase.
  - unfold ProgramCard.gradientClass. by rewrite first_letter_upper.
  - unfold ProgramCard.gradientClass. by rewrite first_letter_lower.
  - unfold Utils.formatProgramStatusBadge. rewrite toLowerCase_toUpperCase.
    repeat match goal with
           | |- context [if ?b then _ else _] => destruct b
           end; reflexivity.
  - unfold Utils.formatProgramStatusBadge. rewrite toLowerCase_idem.
    repeat match goal with
           | |- context [if ?b then _ else _] => destruct b
           end; reflexivity.
Qed.

Lemma presentation_ignores_case_witness :
  Utils.formatProgramBadge (Js.toUpperCase "Hiv") = Utils.formatProgramBadge "Hiv" /\
  Utils.formatProgramBadge (Js.toLowerCase "Hiv") = Utils.formatProgramBadge "Hiv" /\
  ProgramCard.gradientClass (Js.toUpperCase "Hiv") = ProgramCard.gradientClass "Hiv" /\
  ProgramCard.gradientClass (Js.toLowerCase "Hiv") = ProgramCard.gradientClass "Hiv" /\
  Utils.className (Utils.formatProgramStatusBadge (Js.toUpperCase "Hiv")) =
    Utils.className (Utils.formatProgramStatusBadge "Hiv") /\
  Utils.className (Utils.formatProgramStatusBadge (Js.toLowerCase "Hiv")) =
    Utils.className (Utils.formatProgramStatusBadge "Hiv").
Proof. apply (presentation_ignores_case "Hiv" eq_refl). Defined.

(** X19.  The age is the number of birthdays passed: counting in the
    order of year, month and day, the birth date moved on by the age is
    not after today, and moved on by one year more it is. *)
Theorem calculateAge_counts_birthdays (birthDate today : Utils.Calendar) :
  let age := Utils.calculateAge birthDate today in
  let reached (years : Z) :=
    Utils.getFullYear birthDate + years < Utils.getFullYear today \/
    (Utils.getFullYear birthDate + years = Utils.getFullYear today /\
     (Utils.getMonth birthDate < Utils.getMonth today \/
      (Utils.getMonth birthDate = Utils.getMonth today /\
       Utils.getDate birthDate <= Utils.getDate today))) in
  reached age /\ ~ reached (age + 1).
Proof.
  intros age reached. subst age reached. unfold Utils.calculateAge.
  destruct birthDate as [by_ bm bd], today as [ty tm td]. cbn.
  destruct (tm - bm <? 0) eqn:Hm; cbn.
  - apply Z.ltb_lt in Hm. lia.
  - apply Z.ltb_ge in Hm. destruct (tm - bm =? 0) eqn:Hm0; cbn.
    + apply Z.eqb_eq in Hm0. destruct (td <? bd) eqn:Hd.
      * apply Z.ltb_lt in Hd. lia.
      * apply Z.ltb_ge in Hd. lia.
    + apply Z.eqb_neq in Hm0. lia.
Qed.

(** X20.  The checkboxes of a program survive the round trip through the
    stored array: the update form reads back the boxes that the program
    form wrote; and whatever array is stored, writing the boxes read
    from it gives the known tags it holds, once each, in the order of
    the form. *)
Theorem requiredInfo_round_trip
    (items : ProgramForm.RequiredInfoItems) (stored : list string) :
  ProgramUpdateForm.getRequiredInfoItems (Some (ProgramForm.requiredInfo items))
    = items /\
  ProgramForm.requiredInfo (ProgramUpdateForm.getRequiredInfoItems (Some stored))
    = List.filter (fun tag => existsb (String.eqb tag) stored)
                  ["testResults"; "medication"; "symptoms"; "followup"] /\
  ProgramUpdateForm.getRequiredInfoItems None =
    ProgramForm.mkItems false false false false.
Proof.
  split; [|split; [|reflexivity]].
  - destruct items as [[] [] [] []]; reflexivity.
  - unfold ProgramForm.requiredInfo, ProgramUpdateForm.getRequiredInfoItems.
    cbn [List.filter ProgramForm.testResults ProgramForm.medication
         ProgramForm.symptoms ProgramForm.followup snd].
    destruct (existsb (String.eqb "testResults") stored),
             (existsb (String.eqb "medication") stored),
             (existsb (String.eqb "symptoms") stored),
             (existsb (String.eqb "followup") stored); reflexivity.
Qed.





(* ===================================================================== *)
(** ** A search text of percent signs; programs made with the form *)
(* ===================================================================== *)

Lemma like_percents (p s : string) :
  p <> "" -> Js.all_chars (fun c => Ascii.eqb c "%") p = true ->
  Pg.like p s = true.
Proof.
  induction p as [|c p IH]; intros Hne Hp; [congruence|].
  simpl in Hp. apply andb_prop in Hp. destruct Hp as [Hc Hp].
  apply Ascii.eqb_eq in Hc. subst c.
  destruct p as [|c' p']; [apply like_percent_all|].
  rewrite like_percent_unfold, IH; [reflexivity|discriminate|exact Hp].
Qed.

Lemma all_percent_lower (q : string) :
  Js.all_chars (fun c => Ascii.eqb c "%") q = true -> Js.toLowerCase q = q.
Proof.
  induction q as [|c q IH]; simpl; [reflexivity|]. intros H.
  apply andb_prop in H. destruct H as [Hc Hq]. apply Ascii.eqb_eq in Hc. subst c.
  unfold Js.toLowerCase in *. simpl. by rewrite IH.
Qed.

Lemma all_chars_app (f : ascii -> bool) (a b : string) :
  Js.all_chars f (a +:+ b) = Js.all_chars f a && Js.all_chars f b.
Proof.
  induction a as [|c a IH]; simpl; [reflexivity|]. by rewrite IH, andb_assoc.
Qed.

(** X22.  The guard of [searchClients] stops the empty text only: a
    search text that consists of percent signs is answered with every
    client of the table. *)
Theorem searchClients_percent (query : string) (db : Db) :
  query <> "" ->
  Js.all_chars (fun c => Ascii.eqb c "%") query = true ->
  Storage.searchClients query db = (inr (clients db), db).
Proof.
  intros Hne Hq. unfold Storage.searchClients, Js.truthy.
  apply String.eqb_neq in Hne. rewrite Hne. simpl.
  unfold select. f_equal. f_equal.
  assert (Hhit : forall c, Storage.search_hit query c = true).
  { intros c. unfold Storage.search_hit, Pg.ilike.
    assert (Hall : Js.all_chars (fun c => Ascii.eqb c "%") ("%" +:+ query +:+ "%")
                   = true).
    { rewrite !all_chars_app, Hq. reflexivity. }
    rewrite (all_percent_lower _ Hall).
    rewrite like_percents; [reflexivity|discriminate|exact Hall]. }
  induction (clients db) as [|c cs IH]; simpl; [reflexivity|].
  by rewrite Hhit, IH.
Qed.

Lemma searchClients_percent_witness :
  Storage.searchClients "%%" crowded_db = (inr [john; peter_row], crowded_db).
Proof.
  apply (searchClients_percent "%%" crowded_db); [discriminate|reflexivity].
Defined.








(* ===================================================================== *)
(** ** Visits, the newest client, other enrollments *)
(* ===================================================================== *)

Lemma in_inner_join_intro {A B} (on : A -> B -> bool) (l : list A) (r : list B)
    (a : A) (b : B) :
  In a l -> In b r -> on a b = true -> In (a, b) (inner_join on l r).
Proof.
  intros Ha Hb Hon. unfold inner_join. apply in_flat_map. exists a.
  split; [exact Ha|]. apply in_map, filter_In. tauto.
Qed.

Lemma insert_visit_returns (nextval : Z) (v : InsertVisit) (db db' : Db) (row : Visit) :
  insert_visit nextval v db = (inr row, db') ->
  v_clientId row = iv_clientId v /\
  v_programId row = iv_programId v /\
  has_client db (iv_clientId v) = true /\
  has_program db (iv_programId v) = true /\
  db' = set_visits (visits db ++ [row]) db.
Proof.
  unfold insert_visit, has_client, has_program. intros H.
  destruct (iv_date v) as [[ms|]|]; try discriminate H;
    (case_if_in H Hid; [discriminate H|]);
    (case_if_in H Hc; [discriminate H|]);
    (case_if_in H Hp; [discriminate H|]);
    apply negb_false_iff in Hc, Hp;
    injection H as <- <-; repeat split; assumption.
Qed.

(** X24.  A visit that [createVisit] returns shows in the details of its
    client: [getClientDetails] then answers the client, and its visits
    hold the new row together with the stored program the visit refers
    to.  [createVisit] returns a row only for a client and a program
    that are stored. *)
Theorem createVisit_then_details
    (nextval : Z) (visit : InsertVisit) (db db' : Db) (row : Visit) :
  Storage.createVisit nextval visit db = (inr row, db') ->
  has_client db (iv_clientId visit) = true /\
  has_program db (iv_programId visit) = true /\
  exists d p,
    Storage.getClientDetails (iv_clientId visit) db' = (inr (Some d), db') /\
    In (row, p) (cd_visits d) /\
    In p (programs db) /\
    p_id p = iv_programId visit.
Proof.
  intros H. apply insert_visit_returns in H.
  destruct H as (Hrc & Hrp & Hc & Hp & ->).
  split; [exact Hc|]. split; [exact Hp|].
  destruct (filter_some _ _ Hc) as (c & cs & Hfc).
  unfold has_program in Hp. apply existsb_exists in Hp.
  destruct Hp as (p & Hpin & Hpid). apply Z.eqb_eq in Hpid.
  eexists. exists p. split.
  - unfold Storage.getClientDetails. unfold bind at 1.
    rewrite getClientById_run. simpl. rewrite Hfc. reflexivity.
  - simpl. split; [|split; assumption].
    apply filter_In. split.
    + apply in_inner_join_intro; [apply in_or_app; right; by left|exact Hpin|].
      apply Z.eqb_eq. congruence.
    + simpl. apply Z.eqb_eq. exact Hrc.
Qed.

Lemma createVisit_then_details_witness :
  has_client sample_db 1 = true /\
  has_program sample_db 1 = true /\
  exists d p,
    Storage.getClientDetails 1 (set_visits [john_visit] sample_db) =
      (inr (Some d), set_visits [john_visit] sample_db) /\
    In (john_visit, p) (cd_visits d) /\
    In p (programs sample_db) /\
    p_id p = 1.
Proof.
  apply (createVisit_then_details 1 visit_of_john sample_db
           (set_visits [john_visit] sample_db) john_visit).
  vm_compute. reflexivity.
Defined.

(** X25.  The client just created heads the list: with the sequences
    ahead, after a [createClient] that returned a record, [getClients]
    answers that record first, followed by the clients from before. *)
Theorem new_client_listed_first
    (year : Z) (client : InsertClient) (db db' : Db) (row : Client) :
  sequences_ahead db ->
  Storage.createClient year client db = (inr row, db') ->
  exists rest,
    Storage.getClients db' = (inr (row :: rest), db') /\
    rest ≡ₚ clients db.
Proof.
  intros (_ & Hcs & _) H.
  destruct (createClient_runs_insert year client db) as (cid & Hrun & _).
  rewrite Hrun in H. apply insert_client_returns in H.
  destruct H as (Hid & _ & _ & _ & _ & ->).
  unfold Storage.getClients. simpl.
  pose proof (order_by_id_desc_perm (clients db ++ [row])) as Hperm.
  pose proof (order_by_id_desc_sorted (clients db ++ [row])) as Hsorted.
  destruct (order_by_id_desc (clients db ++ [row])) as [|x rest].
  { apply Permutation_nil_l in Hperm. by destruct (clients db). }
  assert (Hx : x = row).
  { assert (Hxin : x ∈ clients db ++ [row]) by (rewrite <- Hperm; by left).
    apply elem_of_app in Hxin. destruct Hxin as [Hxin|Hxin];
      [|by apply list_elem_of_singleton in Hxin].
    exfalso. rewrite Forall_forall in Hcs. specialize (Hcs x Hxin). simpl in Hcs.
    assert (Hrow : row ∈ x :: rest).
    { rewrite Hperm. apply elem_of_app. right. by left. }
    apply StronglySorted_inv in Hsorted. destruct Hsorted as [_ Hnewer].
    apply elem_of_cons in Hrow. destruct Hrow as [->|Hrow]; [lia|].
    rewrite Forall_forall in Hnewer. specialize (Hnewer row Hrow).
    unfold newer in Hnewer. lia. }
  subst x. exists rest. split; [reflexivity|].
  apply (Permutation_cons_app_inv (clients db) []) in Hperm.
  by rewrite app_nil_r in Hperm.
Qed.

Lemma new_client_listed_first_witness :
  exists rest,
    Storage.getClients (set_clients [john; peter_row] 3 sample_db) =
      (inr (peter_row :: rest), set_clients [john; peter_row] 3 sample_db) /\
    rest ≡ₚ clients sample_db.
Proof.
  apply (new_client_listed_first 2025 peter sample_db
           (set_clients [john; peter_row] 3 sample_db) peter_row sample_db_ahead).
  vm_compute. reflexivity.
Defined.

(** X26.  [deleteEnrollment] touches the rows of its pair only: whether
    another client and program are enrolled is the same before and
    after, and the clients and programs themselves stay. *)
Theorem deleteEnrollment_spares_others
    (clientId programId otherClient otherProgram : Z) (db : Db) :
  (otherClient, otherProgram) <> (clientId, programId) ->
  has_enrollment (snd (Storage.deleteEnrollment clientId programId db))
                 otherClient otherProgram
    = has_enrollment db otherClient otherProgram /\
  clients (snd (Storage.deleteEnrollment clientId programId db)) = clients db /\
  programs (snd (Storage.deleteEnrollment clientId programId db)) = programs db.
Proof.
  intros Hne. split; [|split; reflexivity].
  unfold has_enrollment, Storage.deleteEnrollment. simpl.
  induction (enrollments db) as [|e es IH]; simpl; [reflexivity|].
  destruct (same_pair clientId programId e) eqn:Hhit; simpl; rewrite IH.
  - assert (Hother : same_pair otherClient otherProgram e = false);
      [|by rewrite Hother].
    unfold same_pair in *. apply andb_prop in Hhit. destruct Hhit as [Hc Hp].
    apply Z.eqb_eq in Hc, Hp. apply andb_false_iff.
    destruct (Z.eqb_spec (e_clientId e) otherClient) as [Hc'|]; [|by left].
    right. apply Z.eqb_neq. intros Hp'. apply Hne. congruence.
  - reflexivity.
Qed.

Lemma deleteEnrollment_spares_others_witness :
  has_enrollment (snd (Storage.deleteEnrollment 2 1 sample_db)) 1 1
    = has_enrollment sample_db 1 1 /\
  clients (snd (Storage.deleteEnrollment 2 1 sample_db)) = clients sample_db /\
  programs (snd (Storage.deleteEnrollment 2 1 sample_db)) = programs sample_db.
Proof.
  apply (deleteEnrollment_spares_others 2 1 1 1 sample_db). discriminate.
Defined.

(* ===================================================================== *)
(** ** Generated ids tell sequence numbers apart *)
(* ===================================================================== *)

Lemma uint_of_zeros (k : nat) (d : Decimal.uint) :
  NilEmpty.uint_of_string (Js.repeat_char "0" k +:+ NilEmpty.string_of_uint d)
  = Some (Nat.iter k Decimal.D0 d).
Proof.
  induction k as [|k IH]; simpl; [apply NilEmpty.usu|].
  rewrite IH. reflexivity.
Qed.

Lemma of_uint_zeros (k : nat) (d : Decimal.uint) :
  Z.of_uint (Nat.iter k Decimal.D0 d) = Z.of_uint d.
Proof. induction k as [|k IH]; simpl; [reflexivity|]. exact IH. Qed.

Lemma digits_value_padded (n : Z) :
  0 <= n -> digits_value (Js.padStart 3 "0" (Js.String_of n)) = Some n.
Proof.
  intros Hn. destruct n as [|p|p]; [reflexivity| |lia].
  unfold digits_value, Js.padStart, Js.String_of. simpl.
  pose proof (DecimalPos.Unsigned.of_to p) as Hp.
  assert (Hs : NilZero.string_of_uint (Pos.to_uint p)
               = NilEmpty.string_of_uint (Pos.to_uint p)).
  { destruct (Pos.to_uint p); [discriminate Hp|reflexivity..]. }
  rewrite Hs, uint_of_zeros. simpl. f_equal.
  rewrite of_uint_zeros. unfold Z.of_uint. by rewrite Hp.
Qed.

Lemma append_cancel_l (p x y : string) : p +:+ x = p +:+ y -> x = y.
Proof.
  induction p as [|c p IH]; simpl; [trivial|]. intros [= H]. by apply IH.
Qed.

(** X27.  The third part of a generated client id can be read back as
    the sequence number it was made from, so that within a year the ids
    made for two different sequence numbers differ. *)
Theorem generateClientId_injective (year a b : Z) :
  0 <= a -> 0 <= b ->
  digits_value (Js.padStart 3 "0" (Js.String_of a)) = Some a /\
  (Utils.generateClientId year a = Utils.generateClientId year b -> a = b).
Proof.
  intros Ha Hb. split; [by apply digits_value_padded|].
  unfold Utils.generateClientId. intros H.
  do 3 apply append_cancel_l in H.
  pose proof (digits_value_padded a Ha) as Hva.
  pose proof (digits_value_padded b Hb) as Hvb.
  rewrite H in Hva. congruence.
Qed.

Lemma generateClientId_injective_witness :
  digits_value (Js.padStart 3 "0" (Js.String_of 7)) = Some 7 /\
  (Utils.generateClientId 2025 7 = Utils.generateClientId 2025 1007 -> 7 = 1007).
Proof. apply (generateClientId_injective 2025 7 1007); lia. Defined.
(* ===================================================================== *)
(** ** The counts add up *)
(* ===================================================================== *)

Lemma getProgramsWithEnrollmentCount_run (db : Db) :
  Storage.getProgramsWithEnrollmentCount db =
    (inr (map (fun p => mkProgramWithEnrollments p
                          (count_sent (enrollments_of db (p_id p))))
              (programs db)), db).
Proof.
  unfold Storage.getProgramsWithEnrollmentCount, Storage.getPrograms, select,
    bind, ret.
  assert (Hall : List.filter (fun _ : Program => true) (programs db) = programs db).
  { induction (programs db) as [|p ps IH]; simpl; congruence. }
  rewrite Hall. f_equal. f_equal. apply map_ext. intros p. f_equal.
  apply enrollmentCountMap_get.
Qed.

Lemma digits_value_String_of (n : Z) :
  0 <= n -> digits_value (Js.String_of n) = Some n.
Proof.
  intros Hn. destruct n as [|p|p]; [reflexivity| |lia].
  unfold digits_value, Js.String_of. simpl.
  pose proof (DecimalPos.Unsigned.of_to p) as Hp.
  assert (Hs : NilZero.string_of_uint (Pos.to_uint p)
               = NilEmpty.string_of_uint (Pos.to_uint p)).
  { destruct (Pos.to_uint p); [discriminate Hp|reflexivity..]. }
  rewrite Hs, NilEmpty.usu. simpl. f_equal.
  unfold Z.of_uint. by rewrite Hp.
Qed.

Lemma count_value_sent (n : nat) : count_value (count_sent n) = Some (Z.of_nat n).
Proof.
  unfold count_sent. destruct (Nat.eqb_spec n 0) as [->|Hn]; [reflexivity|].
  simpl. apply digits_value_String_of. lia.
Qed.

Lemma list_sum_indicator {B} (on : B -> bool) (r : list B) :
  list_sum (map (fun b => if on b then 1%nat else 0%nat) r)
  = length (List.filter on r).
Proof.
  induction r as [|b r IH]; simpl; [reflexivity|].
  destruct (on b); simpl; by rewrite IH.
Qed.

Lemma list_sum_plus {B} (f g : B -> nat) (r : list B) :
  list_sum (map (fun b => (f b + g b)%nat) r)
  = (list_sum (map f r) + list_sum (map g r))%nat.
Proof. induction r as [|b r IH]; simpl; [reflexivity|]. rewrite IH. lia. Qed.

Lemma counts_add_up (ps : list Program) (es : list Enrollment) :
  (forall e, In e es ->
     length (List.filter (fun p => e_programId e =? p_id p) ps) = 1%nat) ->
  list_sum (map (fun p => length (List.filter (fun e => e_programId e =? p_id p) es))
                ps)
  = length es.
Proof.
  induction es as [|e es IH]; intros H.
  - simpl. clear H. induction ps as [|p ps IHp]; simpl; [reflexivity | exact IHp].
  - change (length (e :: es)) with (1 + length es)%nat.
    rewrite <- (IH (fun e' He' => H e' (or_intror He'))).
    rewrite <- (H e (or_introl eq_refl)), <- list_sum_indicator.
    rewrite <- list_sum_plus. f_equal. apply map_ext. intros p. simpl.
    destruct (e_programId e =? p_id p); reflexivity.
Qed.

Lemma values_of_counts_sent (ns : list nat) :
  mapM count_value (map count_sent ns) = Some (map Z.of_nat ns).
Proof.
  induction ns as [|n ns IH]; [reflexivity|].
  cbn [map mapM]. rewrite count_value_sent, IH. reflexivity.
Qed.

Lemma sum_of_nats (ns : list nat) :
  foldr Z.add 0 (map Z.of_nat ns) = Z.of_nat (list_sum ns).
Proof. induction ns as [|n ns IH]; simpl; [reflexivity|]. rewrite IH. lia. Qed.

(** X11.  In a database that satisfies the constraints of the schema
    every [enrollmentCount] of [getProgramsWithEnrollmentCount], the
    number 0 or a text, denotes a number, and these numbers add up to
    the number of enrollments: every enrollment is counted, and counted
    for one program only. *)
Theorem enrollment_counts_add_up (db : Db) :
  integrity db ->
  exists result values,
    Storage.getProgramsWithEnrollmentCount db = (inr result, db) /\
    mapM count_value (map enrollmentCount result) = Some values /\
    foldr Z.add 0 values = Z.of_nat (length (enrollments db)).
Proof.
  intros Hok. eexists. eexists.
  split; [apply getProgramsWithEnrollmentCount_run|].
  rewrite map_map. cbn [enrollmentCount].
  rewrite <- (map_map (fun p => enrollments_of db (p_id p)) count_sent).
  split; [apply values_of_counts_sent|].
  rewrite sum_of_nats. f_equal. unfold enrollments_of.
  apply counts_add_up. by apply one_program_each.
Qed.

Lemma enrollment_counts_add_up_witness :
  exists result values,
    Storage.getProgramsWithEnrollmentCount sample_db = (inr result, sample_db) /\
    mapM count_value (map enrollmentCount result) = Some values /\
    foldr Z.add 0 values = Z.of_nat (length (enrollments sample_db)).
Proof. apply (enrollment_counts_add_up sample_db sample_db_integrity). Defined.
